(** * Vivaldi bookmark extractor: a shallow embedding of
      [vivaldi_bookmarks_extractor.py] and the properties of its
      flattening, timestamp decoding and CSV export steps. *)

From Stdlib Require Import ZArith List String Ascii Bool Lia Arith.
From Stdlib Require Import DecimalString Sorting.Sorted Permutation.
Import ListNotations.
Open Scope string_scope.
Set Warnings "-register-all".

(** ** Values produced by [json.load]

    A parsed document is a tree of Python values.  Objects are [dict]s:
    insertion ordered, with string keys.  Numbers are the integers; numbers
    with a fraction do not occur in a bookmarks file and are left out.
    A character of a string is the code point of its number, so strings
    are the texts over the code points below 256. *)

Inductive pyval : Type :=
| PNone
| PBool (b : bool)
| PInt (z : Z)
| PStr (s : string)
| PList (l : list pyval)
| PDict (d : list (string * pyval)).

Definition dict : Type := list (string * pyval).

(** Exceptions that the modelled code can raise. *)
Inductive exn : Type :=
| AttributeError
| TypeError
| ValueError
| OverflowError.

Inductive result (A : Type) : Type :=
| Ok (a : A)
| Raise (e : exn).
Arguments Ok {A} a.
Arguments Raise {A} e.

Definition bind {A B} (m : result A) (k : A -> result B) : result B :=
  match m with
  | Ok a => k a
  | Raise e => Raise e
  end.

Declare Scope py_scope.
Delimit Scope py_scope with py.
Notation "x <- m ;; k" := (bind m (fun x => k))
  (at level 61, m at next level, right associativity) : py_scope.

(** ** Dictionaries *)

Module Dict.

(** [d\[k\]] when [k in d]. *)
Fixpoint lookup (d : dict) (k : string) : option pyval :=
  match d with
  | [] => None
  | (k', v) :: d' => if String.eqb k' k then Some v else lookup d' k
  end.

(** [d.get(k, default)]. *)
Definition get (d : dict) (k : string) (default : pyval) : pyval :=
  match lookup d k with
  | Some v => v
  | None => default
  end.

(** [k in d]. *)
Definition mem (d : dict) (k : string) : bool :=
  match lookup d k with
  | Some _ => true
  | None => false
  end.

(** [d\[k\] = v]: an existing key keeps its position, a new key goes last. *)
Fixpoint set (d : dict) (k : string) (v : pyval) : dict :=
  match d with
  | [] => [(k, v)]
  | (k', v') :: d' =>
      if String.eqb k' k then (k', v) :: d' else (k', v') :: set d' k v
  end.

(** [d.keys()]. *)
Definition keys (d : dict) : list string := map fst d.

(** [del d\[k\]], used to state that a key is absent. *)
Fixpoint remove (d : dict) (k : string) : dict :=
  match d with
  | [] => []
  | (k', v) :: d' =>
      if String.eqb k' k then remove d' k else (k', v) :: remove d' k
  end.

(** Keys of a Python dict are pairwise distinct. *)
Definition wf (d : dict) : Prop := NoDup (keys d).

Section Case.
Context {A : Type} (k : string) (absent : A) (present : pyval -> A).

(** [lookup] in continuation style: the continuation receives the
    stored value itself, which keeps recursion over a document
    structural. *)
Fixpoint case (d : dict) : A :=
  match d with
  | [] => absent
  | (k', v) :: d' => if String.eqb k' k then present v else case d'
  end.
End Case.

End Dict.

Section ForEach.
Context {A S : Type} (body : A -> S -> result S).

(** [for x in l: body], threading the state, stopping at the first
    exception. *)
Fixpoint for_each (l : list A) (s : S) : result S :=
  match l with
  | [] => Ok s
  | x :: l' =>
      match body x s with
      | Ok s' => for_each l' s'
      | Raise e => Raise e
      end
  end.
End ForEach.

(** ** Truth value and text of a value *)

(** [bool(v)]. *)
Definition truthy (v : pyval) : bool :=
  match v with
  | PNone => false
  | PBool b => b
  | PInt z => negb (Z.eqb z 0)
  | PStr s => negb (String.eqb s "")
  | PList l => match l with [] => false | _ => true end
  | PDict d => match d with [] => false | _ => true end
  end.

(** [v == s] for a string literal [s]. *)
Definition eq_str (v : pyval) (s : string) : bool :=
  match v with
  | PStr t => String.eqb t s
  | _ => false
  end.

Module Repr.

Definition hex_digit (n : nat) : ascii :=
  match n with
  | 0 => "0" | 1 => "1" | 2 => "2" | 3 => "3" | 4 => "4" | 5 => "5"
  | 6 => "6" | 7 => "7" | 8 => "8" | 9 => "9" | 10 => "a" | 11 => "b"
  | 12 => "c" | 13 => "d" | 14 => "e" | _ => "f"
  end%char.

Fixpoint contains (c : ascii) (s : string) : bool :=
  match s with
  | EmptyString => false
  | String c' s' => Ascii.eqb c c' || contains c s'
  end.

(** The quote [repr] chooses: a double quote only when the text has a
    single quote and no double quote. *)
Definition double_quote : ascii := ascii_of_nat 34.

Definition quote_of (s : string) : ascii :=
  if contains "'" s && negb (contains double_quote s) then double_quote
  else "'"%char.

Definition escape_char (q c : ascii) : string :=
  let n := nat_of_ascii c in
  if Ascii.eqb c q || Ascii.eqb c "\" then String "\" (String c EmptyString)
  else if Nat.eqb n 9 then "\t"
  else if Nat.eqb n 10 then "\n"
  else if Nat.eqb n 13 then "\r"
  else if Nat.ltb n 32 || (Nat.leb 127 n && Nat.leb n 160) || Nat.eqb n 173 then
    String "\" (String "x" (String (hex_digit (n / 16))
                              (String (hex_digit (n mod 16)) EmptyString)))
  else String c EmptyString.

Fixpoint escape (q : ascii) (s : string) : string :=
  match s with
  | EmptyString => EmptyString
  | String c s' => escape_char q c ++ escape q s'
  end.

Definition of_str (s : string) : string :=
  let q := quote_of s in
  String q (escape q s ++ String q EmptyString).

Definition of_int (z : Z) : string := NilZero.string_of_int (Z.to_int z).

Fixpoint join (sep : string) (l : list string) : string :=
  match l with
  | [] => ""
  | [x] => x
  | x :: l' => x ++ sep ++ join sep l'
  end.

(** [repr(v)]. *)
Fixpoint repr (v : pyval) : string :=
  match v with
  | PNone => "None"
  | PBool true => "True"
  | PBool false => "False"
  | PInt z => of_int z
  | PStr s => of_str s
  | PList l => "[" ++ join ", " (map repr l) ++ "]"
  | PDict d =>
      "{" ++ join ", " (map (fun kv => of_str (fst kv) ++ ": " ++ repr (snd kv)) d)
          ++ "}"
  end.

End Repr.

(** [str(v)], which is what an f-string field renders. *)
Definition py_str (v : pyval) : string :=
  match v with
  | PStr s => s
  | _ => Repr.repr v
  end.

(** ** Tree flattener: [traverse_bookmarks]

    [bookmarks_list] is the list the Python code appends to; the function
    returns the list as it is after the call.  Calling [.get] on a value
    that is not a dict raises [AttributeError], and iterating over a value
    that is not iterable raises [TypeError].  The interpreter's limit on
    the depth of recursion is not modelled. *)

(** The record built for a url node, before the node's other keys are
    copied. *)
Definition bookmark_base (d : dict) (path : pyval) : dict :=
  [ ("name", Dict.get d "name" (PStr "Unnamed Bookmark"));
    ("url", Dict.get d "url" (PStr ""));
    ("date_added", Dict.get d "date_added" (PStr ""));
    ("date_modified", Dict.get d "date_modified" (PStr ""));
    ("path", path) ].

(** [for key, value in node.items(): if key not in bookmark and
    key != 'children': bookmark\[key\] = value]. *)
Definition copy_item (bookmark : dict) (kv : string * pyval) : dict :=
  if negb (Dict.mem bookmark (fst kv)) && negb (String.eqb (fst kv) "children")
  then Dict.set bookmark (fst kv) (snd kv)
  else bookmark.

Definition make_bookmark (d : dict) (path : pyval) : dict :=
  fold_left copy_item d (bookmark_base d path).

(** [f"{path}/{name}" if path else name]. *)
Definition folder_path (path name : pyval) : pyval :=
  if truthy path then PStr (py_str path ++ "/" ++ py_str name) else name.

Fixpoint traverse_bookmarks (node : pyval) (bookmarks_list : list dict)
    (path : pyval) {struct node} : result (list dict) :=
  match node with
  | PDict d =>
      if eq_str (Dict.get d "type" PNone) "folder" then
        let current_path :=
          folder_path path (Dict.get d "name" (PStr "Unnamed Folder")) in
        Dict.case "children" (Ok bookmarks_list)
          (fun children =>
             match children with
             | PList cs =>
                 for_each (fun child acc =>
                             traverse_bookmarks child acc current_path)
                          cs bookmarks_list
             | PStr s =>
                 (* the children are the characters, which have no [.get] *)
                 if String.eqb s "" then Ok bookmarks_list
                 else Raise AttributeError
             | PDict cd =>
                 (* the children are the keys, which have no [.get] *)
                 match cd with
                 | [] => Ok bookmarks_list
                 | _ => Raise AttributeError
                 end
             | _ => Raise TypeError
             end) d
      else if eq_str (Dict.get d "type" PNone) "url" then
        Ok (bookmarks_list ++ [make_bookmark d path])%list
      else Ok bookmarks_list
  | _ => Raise AttributeError
  end.

(** ** Programs that print, write files and may stop

    The world is what the script prints and the CSV files it has written,
    a file being the rows handed to the [csv] writer, field by field. *)

Definition csv_rows : Type := list (list pyval).

Record world : Type := mkWorld {
  stdout : list string;
  files : list (string * csv_rows)
}.

Definition init_world : world := mkWorld [] [].

Inductive stop : Type :=
| Uncaught (e : exn)
| SystemExit (code : Z).

Inductive outcome (A : Type) : Type :=
| Done (a : A)
| Stop (s : stop).
Arguments Done {A} a.
Arguments Stop {A} s.

Definition io (A : Type) : Type := world -> world * outcome A.

Module IO.

Definition ret {A} (a : A) : io A := fun w => (w, Done a).

Definition bind {A B} (m : io A) (k : A -> io B) : io B :=
  fun w =>
    match m w with
    | (w', Done a) => k a w'
    | (w', Stop s) => (w', Stop s)
    end.

Definition print (line : string) : io unit :=
  fun w => (mkWorld (stdout w ++ [line]) (files w), Done tt).

Definition exit {A} (code : Z) : io A := fun w => (w, Stop (SystemExit code)).

Definition lift {A} (r : result A) : io A :=
  fun w =>
    match r with
    | Ok a => (w, Done a)
    | Raise e => (w, Stop (Uncaught e))
    end.

Definition write_file (name : string) (rows : csv_rows) : io unit :=
  fun w => (mkWorld (stdout w) ((name, rows) :: files w), Done tt).

Section Loop.
Context {A S : Type} (body : A -> S -> io S).

(** [for x in l: body], with the loop's variables as state. *)
Fixpoint for_each (l : list A) (s : S) : io S :=
  match l with
  | [] => ret s
  | x :: l' => bind (body x s) (for_each l')
  end.
End Loop.

End IO.

Declare Scope io_scope.
Delimit Scope io_scope with io.
Notation "x <- m ;; k" := (IO.bind m (fun x => k))
  (at level 61, m at next level, right associativity) : io_scope.
Notation "m ;; k" := (IO.bind m (fun _ => k))
  (at level 61, right associativity) : io_scope.

(** ** Root collector: [get_all_bookmarks] *)

Definition roots : list string := ["bookmark_bar"; "other"; "synced"].

Definition no_roots_msg : string :=
  "No 'roots' key found in the bookmarks file.".

Definition no_root_msg (root_key : string) : string :=
  "No '" ++ root_key ++ "' key found under 'roots'.".

(** The body of [for root_key in roots]; [bookmarks] is the list being
    accumulated. *)
Definition collect_root (roots_data : dict) (root_key : string)
    (bookmarks : list dict) : io (list dict) :=
  (let root := Dict.get roots_data root_key (PDict []) in
   if negb (truthy root) then
     IO.print (no_root_msg root_key) ;; IO.ret bookmarks
   else
     match root with
     | PDict r =>
         IO.lift (traverse_bookmarks root bookmarks
                    (Dict.get r "name" (PStr root_key)))
     | _ => IO.lift (Raise AttributeError)
     end)%io.

Definition get_all_bookmarks (data : pyval) : io (list dict) :=
  (match data with
   | PDict top =>
       let roots_data := Dict.get top "roots" (PDict []) in
       if negb (truthy roots_data) then
         IO.print no_roots_msg ;; IO.ret []
       else
         match roots_data with
         | PDict rd => IO.for_each (collect_root rd) roots []
         | _ => IO.lift (Raise AttributeError)
         end
   | _ => IO.lift (Raise AttributeError)
   end)%io.

(** ** Tabular exporter: [export_to_csv] *)

Module Headers.

(** [headers.update(keys)] on a set kept as a duplicate free list. *)
Definition add (k : string) (s : list string) : list string :=
  if existsb (String.eqb k) s then s else (s ++ [k])%list.

Definition update (s : list string) (ks : list string) : list string :=
  fold_left (fun acc k => add k acc) ks s.

Definition collect (bookmarks : list dict) : list string :=
  fold_left (fun acc bm => update acc (Dict.keys bm)) bookmarks [].

Fixpoint insert (k : string) (l : list string) : list string :=
  match l with
  | [] => [k]
  | x :: l' => if String.leb k x then k :: l else x :: insert k l'
  end.

(** [sorted(headers)]: strings compare by code point. *)
Definition sorted (l : list string) : list string :=
  fold_right insert [] l.

End Headers.

(** [csv.DictWriter.writerow]: the fields of a row, a missing key giving
    the writer's [restval], the empty string.  Every key of [bm] is a
    field name, so the writer's check for extra keys passes. *)
Definition row_of (headers : list string) (bm : dict) : list pyval :=
  map (fun h => Dict.get bm h (PStr "")) headers.

Definition csv_of (headers : list string) (bookmarks : list dict) : csv_rows :=
  map PStr headers :: map (row_of headers) bookmarks.

(** [open_error] gives, for a destination that cannot be opened for
    writing, the text of the exception; it stands for the file system the
    script runs on.  Only this failure of the [try] block is modelled: a
    fault of the file system while the rows are written, which leaves a
    partial file behind, is not. *)
Definition export_to_csv (open_error : string -> option string)
    (bookmarks : list dict) (output_file : string) : io unit :=
  (match bookmarks with
   | [] => IO.print "No bookmarks to export."
   | _ =>
       let headers := Headers.sorted (Headers.collect bookmarks) in
       match open_error output_file with
       | None =>
           IO.write_file output_file (csv_of headers bookmarks) ;;
           IO.print ("Bookmarks successfully exported to " ++ output_file)
       | Some e =>
           IO.print ("Error writing to CSV file: " ++ e) ;;
           IO.exit 1
       end
   end)%io.

(** ** Timestamp decoder: [convert_webkit_timestamp]

    The function calls into the Python runtime: [int], true division of
    integers, [datetime.timedelta], addition of a [datetime] and
    [strftime].  Each is modelled below on the integers, the binary64
    arithmetic included. *)

Open Scope Z_scope.

Module PyInt.

(** Characters [int] skips around a number. *)
Definition is_space (c : ascii) : bool :=
  let n := Z.of_nat (nat_of_ascii c) in
  ((9 <=? n) && (n <=? 13)) || (n =? 32) || (n =? 133) || (n =? 160).

Definition digit (c : ascii) : option Z :=
  let n := Z.of_nat (nat_of_ascii c) in
  if (48 <=? n) && (n <=? 57) then Some (n - 48) else None.

Fixpoint lstrip (s : string) : string :=
  match s with
  | String c s' => if is_space c then lstrip s' else s
  | EmptyString => s
  end.

Fixpoint all_space (s : string) : bool :=
  match s with
  | String c s' => is_space c && all_space s'
  | EmptyString => true
  end.

(** Digits with single underscores between them.  [prev] says that a
    digit must come next: at the start and after an underscore.  The
    result is the value, the number of digits and the text left. *)
Fixpoint scan (s : string) (prev : bool) (acc : Z) (count : nat)
    : option (Z * nat * string) :=
  match s with
  | EmptyString => if prev then None else Some (acc, count, s)
  | String c s' =>
      match digit c with
      | Some d => scan s' false (10 * acc + d) (S count)
      | None =>
          if prev then None
          else if Ascii.eqb c "_" then scan s' true acc count
          else Some (acc, count, s)
      end
  end.

(** The longest text [int] converts. *)
Definition max_str_digits : nat := 4300.

Definition unsigned (s : string) : option Z :=
  match scan s true 0 0 with
  | Some (v, count, rest) =>
      if all_space rest && Nat.leb count max_str_digits then Some v else None
  | None => None
  end.

(** [int(s)] for a string. *)
Definition of_string (s : string) : option Z :=
  match lstrip s with
  | String "+" s' => unsigned s'
  | String "-" s' => option_map Z.opp (unsigned s')
  | s' => unsigned s'
  end.

(** [int(v)]. *)
Definition of_val (v : pyval) : result Z :=
  match v with
  | PStr s =>
      match of_string s with
      | Some z => Ok z
      | None => Raise ValueError
      end
  | PInt z => Ok z
  | PBool b => Ok (if b then 1 else 0)
  | _ => Raise TypeError
  end.

End PyInt.

(** Binary64 numbers, as far as the decoder meets them: [dm * 2 ^ de],
    finite, with a significand below [2 ^ 53] in magnitude. *)
Module Float.

Record t : Type := mk { dm : Z; de : Z }.

Definition zero : t := mk 0 0.

(** The integer nearest to [a / b], a tie going to the even one
    ([b] positive). *)
Definition round_half_even (a b : Z) : Z :=
  let q := a / b in
  let r := a mod b in
  if 2 * r <? b then q
  else if b <? 2 * r then q + 1
  else if Z.even q then q else q + 1.

(** [floor (log2 (a / d))] for positive [a] and [d]. *)
Definition binade (a d : Z) : Z :=
  let e0 := Z.log2 a - Z.log2 d in
  if d * 2 ^ Z.max 0 e0 <=? a * 2 ^ Z.max 0 (- e0) then e0 else e0 - 1.

(** [n / d] for integers, [d] positive: the quotient correctly rounded
    to 53 bits, or [OverflowError]. *)
Definition true_divide (n d : Z) : result t :=
  if n =? 0 then Ok zero
  else
    let a := Z.abs n in
    let sh := 52 - binade a d in
    let m := if 0 <=? sh then round_half_even (a * 2 ^ sh) d
             else round_half_even a (d * 2 ^ (- sh)) in
    if 1024 <=? Z.log2 m - sh then Raise OverflowError
    else Ok (mk (Z.sgn n * m) (- sh)).

(** The integral part, rounding toward zero, and the rest ([modf]). *)
Definition trunc (x : t) : Z :=
  if 0 <=? de x then dm x * 2 ^ de x else Z.quot (dm x) (2 ^ (- de x)).

Definition frac (x : t) : t :=
  if 0 <=? de x then zero else mk (Z.rem (dm x) (2 ^ (- de x))) (de x).

Definition is_zero (x : t) : bool := dm x =? 0.

(** Rounding of an exact result to 53 bits. *)
Definition round53 (x : t) : t :=
  let a := Z.abs (dm x) in
  if a <? 2 ^ 53 then x
  else
    let s := Z.log2 a - 52 in
    mk (Z.sgn (dm x) * round_half_even a (2 ^ s)) (de x + s).

(** [k * x] in binary64, for an integer [k] that is a binary64 number. *)
Definition mul_int (k : Z) (x : t) : t := round53 (mk (k * dm x) (de x)).

(** The nearest integer, a tie going to the even one. *)
Definition to_nearest (x : t) : Z :=
  if 0 <=? de x then dm x * 2 ^ de x
  else round_half_even (dm x) (2 ^ (- de x)).

End Float.

Module Datetime.

Definition us_per_second : Z := 1000000.
Definition us_per_day : Z := 86400 * us_per_second.
Definition max_delta_days : Z := 999999999.
Definition max_ordinal : Z := 3652059.

(** [timedelta(seconds=x)] for a float [x], as a count of microseconds:
    the whole seconds are taken exactly, the fraction is multiplied by
    [1e6] in binary64 and rounded to the nearest microsecond, a tie
    going to the even one.  More than [999999999] days in magnitude is
    an [OverflowError]. *)
Definition timedelta_seconds (x : Float.t) : result Z :=
  let whole := Float.trunc x * us_per_second in
  let part := Float.frac x in
  let us :=
    if Float.is_zero part then whole
    else whole + Float.to_nearest (Float.mul_int us_per_second part) in
  if Z.abs (us / us_per_day) <=? max_delta_days then Ok us
  else Raise OverflowError.

Record datetime : Type := mkDatetime {
  year : Z; month : Z; day : Z;
  hour : Z; minute : Z; second : Z; microsecond : Z
}.

Definition is_leap (y : Z) : bool :=
  (y mod 4 =? 0) && (negb (y mod 100 =? 0) || (y mod 400 =? 0)).

Definition days_before_month (m : Z) : Z :=
  nth (Z.to_nat m) [0; 0; 31; 59; 90; 120; 151; 181; 212; 243; 273; 304; 334] 0.

Definition days_in_month (y m : Z) : Z :=
  if (m =? 2) && is_leap y then 29
  else nth (Z.to_nat m) [0; 31; 28; 31; 30; 31; 30; 31; 31; 30; 31; 30; 31] 0.

Definition di400y : Z := 146097.
Definition di100y : Z := 36524.
Definition di4y : Z := 1461.

(** The date of a proleptic Gregorian ordinal, day 1 being 0001-01-01. *)
Definition ord_to_ymd (ordinal : Z) : Z * Z * Z :=
  let o := ordinal - 1 in
  let n400 := o / di400y in
  let n := o mod di400y in
  let n100 := n / di100y in
  let n := n mod di100y in
  let n4 := n / di4y in
  let n := n mod di4y in
  let n1 := n / 365 in
  let n := n mod 365 in
  let y := n400 * 400 + 1 + n100 * 100 + n4 * 4 + n1 in
  if (n1 =? 4) || (n100 =? 4) then (y - 1, 12, 31)
  else
    let leapyear := (n1 =? 3) && (negb (n4 =? 24) || (n100 =? 3)) in
    let m := Z.shiftr (n + 50) 5 in
    let preceding :=
      days_before_month m + (if (2 <? m) && leapyear then 1 else 0) in
    if n <? preceding then
      (y, m - 1, n - (preceding - days_in_month y (m - 1)) + 1)
    else (y, m, n - preceding + 1).

(** The ordinal of 1601-01-01. *)
Definition epoch_ordinal : Z := 584389.

(** [datetime(1601, 1, 1) + delta], [delta] being a count of
    microseconds; a date outside the years 1 to 9999 is an
    [OverflowError]. *)
Definition epoch_plus (us : Z) : result datetime :=
  let days := us / us_per_day in
  let rest := us mod us_per_day in
  let ordinal := epoch_ordinal + days in
  if (1 <=? ordinal) && (ordinal <=? max_ordinal) then
    let '(y, m, d) := ord_to_ymd ordinal in
    let secs := rest / us_per_second in
    Ok (mkDatetime y m d (secs / 3600) (secs / 60 mod 60) (secs mod 60)
          (rest mod us_per_second))
  else Raise OverflowError.

Definition digit_char (n : Z) : ascii := ascii_of_nat (48 + Z.to_nat (n mod 10)).

(** [n] in decimal, zero padded to [width] digits. *)
Fixpoint pad (width : nat) (n : Z) : string :=
  match width with
  | O => EmptyString
  | S w => (pad w (n / 10) ++ String (digit_char n) EmptyString)%string
  end.

(** [strftime('%Y-%m-%d %H:%M:%S')].  The year is padded to four digits
    here; for years below 1000 the C library decides. *)
Definition strftime (t : datetime) : string :=
  (pad 4 (year t) ++ "-" ++ pad 2 (month t) ++ "-" ++ pad 2 (day t) ++ " "
   ++ pad 2 (hour t) ++ ":" ++ pad 2 (minute t) ++ ":" ++ pad 2 (second t))%string.

End Datetime.

(** The body of the [try] block. *)
Definition convert_body (webkit_timestamp : pyval) : result string :=
  (timestamp_int <- PyInt.of_val webkit_timestamp ;;
   timestamp_sec <- Float.true_divide timestamp_int 1000000 ;;
   delta <- Datetime.timedelta_seconds timestamp_sec ;;
   readable_time <- Datetime.epoch_plus delta ;;
   Ok (Datetime.strftime readable_time))%py.

Definition convert_webkit_timestamp (webkit_timestamp : pyval) : pyval :=
  match convert_body webkit_timestamp with
  | Ok s => PStr s
  | Raise _ => webkit_timestamp
  end.

(** ** The decoding step of [main] *)

Definition decode_bookmark (bm : dict) : dict :=
  let bm1 :=
    Dict.set bm "date_added"
      (convert_webkit_timestamp (Dict.get bm "date_added" (PStr ""))) in
  Dict.set bm1 "date_modified"
    (convert_webkit_timestamp (Dict.get bm1 "date_modified" (PStr ""))).

Definition decode_timestamps (bookmarks : list dict) : list dict :=
  map decode_bookmark bookmarks.


(** ** The driver: [load_bookmarks] and [main]

    What the script finds outside itself is its environment: whether the
    bookmarks file exists, what [open] and [json.load] make of it, and
    whether the CSV file can be written. *)

Inductive load_outcome : Type :=
| Loaded (data : pyval)
| JSONDecodeError (e : string)
| FileNotFoundError
| OtherError (e : string).

Record environment : Type := mkEnv {
  path_exists : string -> bool;
  read_json : string -> load_outcome;
  open_error : string -> option string;
  (** [Path(__file__).parent / "vivaldi_bookmarks.csv"] *)
  output_file : string
}.

Definition load_bookmarks (env : environment) (bookmarks_path : string)
    : io pyval :=
  (match read_json env bookmarks_path with
   | Loaded data => IO.ret data
   | JSONDecodeError e =>
       IO.print ("Error parsing JSON: " ++ e) ;; IO.exit 1
   | FileNotFoundError =>
       IO.print ("Bookmarks file not found at " ++ bookmarks_path) ;; IO.exit 1
   | OtherError e =>
       IO.print ("Error reading bookmarks file: " ++ e) ;; IO.exit 1
   end)%io.

Definition bookmarks_path : string :=
  "C:\Users\Luciano\AppData\Local\Vivaldi\User Data\Default\Bookmarks".

Definition newline : string := String (ascii_of_nat 10) EmptyString.

Definition main (env : environment) : io unit :=
  (if negb (path_exists env bookmarks_path) then
     IO.print ("The specified bookmarks file does not exist:" ++ newline
               ++ bookmarks_path) ;;
     IO.exit 1
   else
     data <- load_bookmarks env bookmarks_path ;;
     bookmarks <- get_all_bookmarks data ;;
     match bookmarks with
     | [] =>
         IO.print "No bookmarks found in the specified file." ;; IO.exit 0
     | _ =>
         export_to_csv (open_error env) (decode_timestamps bookmarks)
           (output_file env)
     end)%io.

(** * Definitions used to state the properties *)

Module DecoderRange.

Definition D : Z := 1000000.

(** The first timestamp whose decoded second is not the exact one. *)
Definition limit : Z := 17179869184999999.

End DecoderRange.

(** Keys that [traverse_bookmarks] sets itself or never copies. *)
Definition reserved_keys : list string :=
  ["name"; "url"; "date_added"; "date_modified"; "path"; "children"]%string.

Definition tagged_url : dict :=
  [ ("type", PStr "url"); ("url", PStr "https://example.org");
    ("tags", PStr "x"); ("children", PList [PInt 1]);
    ("path", PStr "elsewhere") ]%string.

(** A separator whose children hold a bookmark and a value that is not
    a node. *)
Definition separator_node : dict :=
  [ ("type", PStr "separator");
    ("children", PList [PDict [("type", PStr "url"); ("name", PStr "hidden")];
                        PInt 7]) ]%string.

Definition folder (name : string) (children : list pyval) : pyval :=
  PDict [("type", PStr "folder"); ("name", PStr name);
         ("children", PList children)]%string.

(** The records of a subtree in depth-first order, children in the order
    of the document. *)
Fixpoint records_of (node : pyval) (path : pyval) {struct node} : list dict :=
  match node with
  | PDict d =>
      if eq_str (Dict.get d "type" PNone) "folder" then
        Dict.case "children" []
          (fun children =>
             match children with
             | PList cs =>
                 flat_map
                   (fun child =>
                      records_of child
                        (folder_path path
                           (Dict.get d "name" (PStr "Unnamed Folder"))))
                   cs
             | _ => []
             end) d
      else if eq_str (Dict.get d "type" PNone) "url" then [make_bookmark d path]
      else []
  | _ => []
  end.

(** Well-formed nodes: every node is an object, and the children of a
    folder, when present, are a sequence of well-formed nodes. *)
Fixpoint well_formed (node : pyval) : bool :=
  match node with
  | PDict d =>
      if eq_str (Dict.get d "type" PNone) "folder" then
        Dict.case "children" true
          (fun children =>
             match children with
             | PList cs => forallb well_formed cs
             | _ => false
             end) d
      else true
  | _ => false
  end.

Section PyvalInd.
Variable P : pyval -> Prop.
Hypothesis HNone : P PNone.
Hypothesis HBool : forall b, P (PBool b).
Hypothesis HInt : forall z, P (PInt z).
Hypothesis HStr : forall s, P (PStr s).
Hypothesis HList : forall l, Forall P l -> P (PList l).
Hypothesis HDict : forall d, Forall (fun kv => P (snd kv)) d -> P (PDict d).

Fixpoint pyval_nested_ind (v : pyval) : P v :=
  match v with
  | PNone => HNone
  | PBool b => HBool b
  | PInt z => HInt z
  | PStr s => HStr s
  | PList l =>
      HList l
        ((fix go (l : list pyval) : Forall P l :=
            match l with
            | [] => Forall_nil P
            | x :: l' => Forall_cons x (pyval_nested_ind x) (go l')
            end) l)
  | PDict d =>
      HDict d
        ((fix go (d : list (string * pyval))
            : Forall (fun kv => P (snd kv)) d :=
            match d with
            | [] => Forall_nil _
            | kv :: d' =>
                Forall_cons kv (pyval_nested_ind (snd kv)) (go d')
            end) d)
  end.
End PyvalInd.

Definition traverse_spec (node : pyval) : Prop :=
  forall acc path,
    well_formed node = true ->
    traverse_bookmarks node acc path = Ok (acc ++ records_of node path)%list.

(** The records a root contributes. *)
Definition root_records (roots_data : dict) (root_key : string) : list dict :=
  match Dict.get roots_data root_key (PDict []) with
  | PDict r as root =>
      if truthy root then records_of root (Dict.get r "name" (PStr root_key))
      else []
  | _ => []
  end.

(** A root is fine when it is absent, falsy, or a well-formed node. *)
Definition well_formed_root (roots_data : dict) (root_key : string) : bool :=
  let root := Dict.get roots_data root_key (PDict []) in
  negb (truthy root) || well_formed root.

Definition well_formed_document (data : pyval) : bool :=
  match data with
  | PDict top =>
      match Dict.get top "roots" (PDict []) with
      | PDict rd => forallb (well_formed_root rd) roots
      | other => negb (truthy other)
      end
  | _ => false
  end.

Definition printed (w : world) (lines : list string) : world :=
  mkWorld (stdout w ++ lines) (files w).

Definition root_lines (roots_data : dict) (root_key : string) : list string :=
  if truthy (Dict.get roots_data root_key (PDict [])) then []
  else [no_root_msg root_key].

(** All the records of a document, root after root. *)
Definition document_records (data : pyval) : list dict :=
  match data with
  | PDict top =>
      match Dict.get top "roots" (PDict []) with
      | PDict rd =>
          root_records rd "bookmark_bar" ++ root_records rd "other"
            ++ root_records rd "synced"
      | _ => []
      end
  | _ => []
  end%list.

Definition two_root_document : pyval :=
  PDict
    [("roots",
      PDict
        [("other",
          folder "Other"
            [PDict [("type", PStr "url"); ("name", PStr "o1")]]);
         ("bookmark_bar",
          folder "Bar"
            [folder "Work" [PDict [("type", PStr "url"); ("name", PStr "w1")]];
             PDict [("type", PStr "url"); ("name", PStr "b1")]])])]%string.

Definition chain_document (a b c : string) (u : dict) : pyval :=
  PDict
    [("roots",
      PDict [("bookmark_bar", folder a [folder b [folder c [PDict u]]])])]%string.

Definition leaf_url : dict :=
  [("type", PStr "url"); ("name", PStr "leaf"); ("url", PStr "https://x.org")]%string.

Definition roots_with_empty_other : dict :=
  [("bookmark_bar", folder "Bar" [PDict leaf_url]); ("other", PDict [])]%string.

Definition dated_records : list dict :=
  [ make_bookmark leaf_url (PStr "Bar");
    make_bookmark
      [("type", PStr "url"); ("date_added", PStr "13253932800000000");
       ("date_modified", PStr "soon"); ("tags", PStr "x")]%string
      (PStr "Bar/Work") ].

(** The order [sorted] puts strings in: by character code, a proper prefix
    first. *)
Definition str_lt (a b : string) : Prop := String.compare a b = Lt.

Definition ab_ac_records : list dict :=
  [ [("a", PInt 1); ("b", PInt 2)]; [("a", PInt 3); ("c", PInt 4)] ]%string.

(** The claim of exactness for every integer, which the decoder does not
    meet. *)
Definition decoder_exact_everywhere : Prop :=
  forall raw n,
    PyInt.of_string raw = Some n ->
    exists t,
      Datetime.epoch_plus n = Ok t /\
      convert_webkit_timestamp (PStr raw) = PStr (Datetime.strftime t).

(** Nodes that [traverse_bookmarks] goes through without an exception:
    objects whose [children], under a folder, are absent, a list of such
    nodes, or an empty string or object. *)
Fixpoint traversable (node : pyval) : bool :=
  match node with
  | PDict d =>
      if eq_str (Dict.get d "type" PNone) "folder" then
        Dict.case "children" true
          (fun children =>
             match children with
             | PList cs => forallb traversable cs
             | PStr s => String.eqb s ""
             | PDict cd => match cd with [] => true | _ => false end
             | _ => false
             end) d
      else true
  | _ => false
  end.

(** [q] is the path [p] or [p] followed by a slash and more. *)
Definition path_extends (p q : pyval) : Prop :=
  q = p \/ exists rest, q = PStr (py_str p ++ "/" ++ rest).

Definition required_keys : list string :=
  ["name"; "url"; "date_added"; "date_modified"; "path"]%string.

(** A record as [traverse_bookmarks] builds them: the five required keys
    first, no key twice, no [children]. *)
Definition record_shape (r : dict) : Prop :=
  firstn 5 (Dict.keys r) = required_keys /\
  Dict.wf r /\
  ~ In "children"%string (Dict.keys r).

Definition no_diagnostic_but_roots (line : string) : Prop :=
  line = no_roots_msg \/ exists root_key, In root_key roots /\ line = no_root_msg root_key.

Definition appends_only (node : pyval) : Prop :=
  forall acc path,
    traverse_bookmarks node acc path =
    match traverse_bookmarks node [] path with
    | Ok l => Ok (acc ++ l)%list
    | Raise e => Raise e
    end.

Definition traverse_outcome (node : pyval) : Prop :=
  forall acc path,
    if traversable node then
      traverse_bookmarks node acc path = Ok (acc ++ records_of node path)%list
    else
      exists e, traverse_bookmarks node acc path = Raise e /\
                (e = AttributeError \/ e = TypeError).

Definition origin_spec (node : pyval) : Prop :=
  forall path r,
    In r (records_of node path) ->
    exists d q,
      r = make_bookmark d q /\
      Dict.lookup d "type" = Some (PStr "url") /\
      (truthy path = true -> path_extends path q).

(** What [get_all_bookmarks] can end with: the records of the document,
    or an exception of the traversal. *)
Definition collector_outcome (data : pyval) (o : outcome (list dict)) : Prop :=
  match o with
  | Done bookmarks => bookmarks = document_records data
  | Stop s => s = Uncaught AttributeError \/ s = Uncaught TypeError
  end.

Definition decimal_digits : list ascii :=
  ["0"; "1"; "2"; "3"; "4"; "5"; "6"; "7"; "8"; "9"]%char.

(** The header [main] writes for a document. *)
Definition document_headers (data : pyval) : list string :=
  Headers.sorted (Headers.collect (document_records data)).

(** An environment in which the bookmarks file holds [data] and the CSV
    file can be written. *)
Definition working_env (data : pyval) : environment :=
  mkEnv (fun _ => true) (fun _ => Loaded data) (fun _ => None)
        "vivaldi_bookmarks.csv".

(** A root that [get_all_bookmarks] gets through: absent or falsy, or a
    node the traversal gets through. *)
Definition root_collectable (roots_data : dict) (root_key : string) : bool :=
  let root := Dict.get roots_data root_key (PDict []) in
  negb (truthy root) || traversable root.

(** The documents on which [get_all_bookmarks] raises nothing. *)
Definition collectable (data : pyval) : bool :=
  match data with
  | PDict top =>
      match Dict.get top "roots" (PDict []) with
      | PDict rd => forallb (root_collectable rd) roots
      | other => negb (truthy other)
      end
  | _ => false
  end.

Definition missing_file_msg : string :=
  "The specified bookmarks file does not exist:" ++ newline ++ bookmarks_path.

Definition no_bookmarks_msg : string :=
  "No bookmarks found in the specified file.".

(** An environment without the bookmarks file. *)
Definition missing_file_env : environment :=
  mkEnv (fun _ => false) (fun _ => FileNotFoundError) (fun _ => None)
        "vivaldi_bookmarks.csv".

(** An environment in which the bookmarks file holds [data] and the CSV
    file cannot be opened. *)
Definition read_only_env (data : pyval) : environment :=
  mkEnv (fun _ => true) (fun _ => Loaded data)
        (fun _ => Some "Permission denied") "vivaldi_bookmarks.csv".

(** * Properties *)

#[local] Arguments String.eqb : simpl never.

(** ** Dictionaries *)

Module DictFacts.

Lemma case_lookup {A} (k : string) (absent : A) (present : pyval -> A) d :
  Dict.case k absent present d =
  match Dict.lookup d k with
  | Some v => present v
  | None => absent
  end.
Proof.
  induction d as [|[k' v] d IH]; simpl; [reflexivity|].
  destruct (String.eqb k' k); [reflexivity | exact IH].
Qed.

Lemma lookup_In d k v : Dict.lookup d k = Some v -> In (k, v) d.
Proof.
  induction d as [|[k' v'] d IH]; simpl; [discriminate|].
  destruct (String.eqb_spec k' k) as [->|_].
  - intros [= ->]. now left.
  - intros H. right. now apply IH.
Qed.

Lemma lookup_None d k : Dict.lookup d k = None <-> ~ In k (Dict.keys d).
Proof.
  induction d as [|[k' v'] d IH]; simpl.
  - tauto.
  - destruct (String.eqb_spec k' k) as [->|Hne].
    + split; [discriminate | intros H; exfalso; apply H; now left].
    + rewrite IH. tauto.
Qed.

Lemma lookup_set_eq d k v : Dict.lookup (Dict.set d k v) k = Some v.
Proof.
  induction d as [|[k' v'] d IH]; simpl.
  - now rewrite String.eqb_refl.
  - destruct (String.eqb k' k) eqn:E; simpl; rewrite E; auto.
Qed.

Lemma lookup_set_ne d k v k' :
  k <> k' -> Dict.lookup (Dict.set d k v) k' = Dict.lookup d k'.
Proof.
  intros Hne. induction d as [|[k0 v0] d IH]; simpl.
  - destruct (String.eqb_spec k k'); [contradiction | reflexivity].
  - destruct (String.eqb_spec k0 k) as [->|Hk]; simpl.
    + destruct (String.eqb_spec k k'); [contradiction | reflexivity].
    + now rewrite IH.
Qed.

Lemma keys_set_present d k v :
  Dict.mem d k = true -> Dict.keys (Dict.set d k v) = Dict.keys d.
Proof.
  unfold Dict.mem.
  induction d as [|[k0 v0] d IH]; simpl; [discriminate|].
  destruct (String.eqb k0 k) eqn:E; simpl; [reflexivity|].
  intros H. now rewrite IH.
Qed.

Lemma keys_set_absent d k v :
  Dict.mem d k = false -> Dict.keys (Dict.set d k v) = (Dict.keys d ++ [k])%list.
Proof.
  unfold Dict.mem.
  induction d as [|[k0 v0] d IH]; simpl; [reflexivity|].
  destruct (String.eqb k0 k) eqn:E; simpl; [discriminate|].
  intros H. now rewrite IH.
Qed.

Lemma mem_false_not_In d k : Dict.mem d k = false <-> ~ In k (Dict.keys d).
Proof.
  rewrite <- lookup_None. unfold Dict.mem.
  destruct (Dict.lookup d k); split; congruence.
Qed.

Lemma wf_set d k v : Dict.wf d -> Dict.wf (Dict.set d k v).
Proof.
  unfold Dict.wf. intros Hd.
  destruct (Dict.mem d k) eqn:E.
  - now rewrite keys_set_present.
  - rewrite keys_set_absent by assumption.
    apply mem_false_not_In in E.
    apply NoDup_rev in Hd. rewrite <- (rev_involutive (_ ++ _)).
    apply NoDup_rev. rewrite rev_app_distr. simpl.
    constructor; [|assumption]. now rewrite <- in_rev.
Qed.

Lemma lookup_remove_eq d k : Dict.lookup (Dict.remove d k) k = None.
Proof.
  induction d as [|[k0 v0] d IH]; simpl; [reflexivity|].
  destruct (String.eqb k0 k) eqn:E; simpl; [assumption|].
  now rewrite E.
Qed.

Lemma lookup_remove_ne d k k' :
  k <> k' -> Dict.lookup (Dict.remove d k) k' = Dict.lookup d k'.
Proof.
  intros Hne. induction d as [|[k0 v0] d IH]; simpl; [reflexivity|].
  destruct (String.eqb_spec k0 k) as [->|Hk]; simpl.
  - destruct (String.eqb_spec k k'); [contradiction | assumption].
  - now rewrite IH.
Qed.

Lemma get_lookup d k default v :
  Dict.lookup d k = Some v -> Dict.get d k default = v.
Proof. unfold Dict.get. now intros ->. Qed.

Lemma get_absent d k default :
  Dict.lookup d k = None -> Dict.get d k default = default.
Proof. unfold Dict.get. now intros ->. Qed.

End DictFacts.

(** ** The record of a url node *)

Lemma copy_item_lookup bookmark kv k :
  Dict.lookup (copy_item bookmark kv) k =
  match Dict.lookup bookmark k with
  | Some v => Some v
  | None =>
      if String.eqb k "children" then None
      else if String.eqb (fst kv) k then Some (snd kv) else None
  end.
Proof.
  destruct kv as [k0 v0]. unfold copy_item, Dict.mem. simpl.
  destruct (Dict.lookup bookmark k0) eqn:E0; simpl.
  - destruct (Dict.lookup bookmark k) eqn:E; [reflexivity|].
    destruct (String.eqb_spec k "children"); [reflexivity|].
    destruct (String.eqb_spec k0 k); [congruence | reflexivity].
  - destruct (String.eqb_spec k0 "children") as [->|Hc]; simpl.
    + destruct (Dict.lookup bookmark k) eqn:E; [reflexivity|].
      destruct (String.eqb_spec k "children"); [reflexivity|].
      destruct (String.eqb_spec "children" k); [congruence | reflexivity].
    + destruct (String.eqb_spec k0 k) as [->|Hk].
      * rewrite DictFacts.lookup_set_eq, E0.
        destruct (String.eqb_spec k "children"); [contradiction | reflexivity].
      * rewrite DictFacts.lookup_set_ne by assumption.
        destruct (Dict.lookup bookmark k); [reflexivity|].
        now destruct (String.eqb k "children").
Qed.

Lemma copy_items_lookup d bookmark k :
  Dict.lookup (fold_left copy_item d bookmark) k =
  match Dict.lookup bookmark k with
  | Some v => Some v
  | None => if String.eqb k "children" then None else Dict.lookup d k
  end.
Proof.
  revert bookmark. induction d as [|[k0 v0] d IH]; intros bookmark; simpl.
  - destruct (Dict.lookup bookmark k); [reflexivity|].
    now destruct (String.eqb k "children").
  - rewrite IH, copy_item_lookup. simpl.
    destruct (Dict.lookup bookmark k); [reflexivity|].
    destruct (String.eqb k "children"); [reflexivity|].
    now destruct (String.eqb k0 k).
Qed.

Lemma copy_items_wf d bookmark :
  Dict.wf bookmark -> Dict.wf (fold_left copy_item d bookmark).
Proof.
  revert bookmark. induction d as [|kv d IH]; intros bookmark Hb; simpl; auto.
  apply IH. unfold copy_item.
  destruct (_ && _); [now apply DictFacts.wf_set | assumption].
Qed.

Lemma bookmark_base_wf d path : Dict.wf (bookmark_base d path).
Proof.
  unfold Dict.wf, bookmark_base. simpl.
  repeat constructor; simpl; intuition discriminate.
Qed.

Lemma eq_str_lookup d k s :
  eq_str (Dict.get d k PNone) s = true <-> Dict.lookup d k = Some (PStr s).
Proof.
  unfold Dict.get. destruct (Dict.lookup d k) as [[]|]; simpl;
    try (split; [discriminate | congruence]).
  destruct (String.eqb_spec s0 s); split; congruence.
Qed.

Lemma traverse_url d acc path :
  Dict.lookup d "type" = Some (PStr "url") ->
  traverse_bookmarks (PDict d) acc path = Ok (acc ++ [make_bookmark d path])%list.
Proof.
  intros H. simpl. unfold Dict.get. rewrite H. reflexivity.
Qed.

(** C2. A node of type "url" met at [path] appends exactly one record: its
    name, url and dates are the node's or the defaults, its path is [path]
    as received, every other key of the node is copied as it is, and
    [children] is never copied. *)
Theorem url_node_record (d : dict) (acc : list dict) (path : pyval)
    (Htype : Dict.lookup d "type" = Some (PStr "url")) :
  exists r,
    traverse_bookmarks (PDict d) acc path = Ok (acc ++ [r])%list /\
    Dict.lookup r "name" = Some (Dict.get d "name" (PStr "Unnamed Bookmark")) /\
    Dict.lookup r "url" = Some (Dict.get d "url" (PStr "")) /\
    Dict.lookup r "date_added" = Some (Dict.get d "date_added" (PStr "")) /\
    Dict.lookup r "date_modified" = Some (Dict.get d "date_modified" (PStr "")) /\
    Dict.lookup r "path" = Some path /\
    Dict.lookup r "children" = None /\
    (forall k, ~ In k reserved_keys -> Dict.lookup r k = Dict.lookup d k) /\
    Dict.wf r.
Proof.
  exists (make_bookmark d path).
  split; [now apply traverse_url|].
  unfold make_bookmark.
  repeat split; try (rewrite copy_items_lookup; reflexivity).
  - intros k Hk. rewrite copy_items_lookup.
    unfold reserved_keys in Hk. simpl in Hk.
    unfold bookmark_base. simpl.
    destruct (String.eqb_spec "name" k); [tauto|].
    destruct (String.eqb_spec "url" k); [tauto|].
    destruct (String.eqb_spec "date_added" k); [tauto|].
    destruct (String.eqb_spec "date_modified" k); [tauto|].
    destruct (String.eqb_spec "path" k); [tauto|].
    destruct (String.eqb_spec k "children"); [subst; tauto | reflexivity].
  - apply copy_items_wf, bookmark_base_wf.
Qed.

Lemma url_node_record_witness :
  exists r,
    traverse_bookmarks (PDict tagged_url) [] (PStr "Bar/Work") = Ok ([] ++ [r])%list /\
    Dict.lookup r "name" = Some (Dict.get tagged_url "name" (PStr "Unnamed Bookmark")) /\
    Dict.lookup r "url" = Some (Dict.get tagged_url "url" (PStr "")) /\
    Dict.lookup r "date_added" = Some (Dict.get tagged_url "date_added" (PStr "")) /\
    Dict.lookup r "date_modified" = Some (Dict.get tagged_url "date_modified" (PStr "")) /\
    Dict.lookup r "path" = Some (PStr "Bar/Work") /\
    Dict.lookup r "children" = None /\
    (forall k, ~ In k reserved_keys -> Dict.lookup r k = Dict.lookup tagged_url k) /\
    Dict.wf r.
Proof.
  apply (url_node_record tagged_url [] (PStr "Bar/Work")). reflexivity.
Defined.

(** ** Nodes that are neither folders nor urls *)

Lemma eq_str_false d k s :
  Dict.lookup d k <> Some (PStr s) -> eq_str (Dict.get d k PNone) s = false.
Proof.
  intros H. destruct (eq_str _ s) eqn:E; [|reflexivity].
  now apply eq_str_lookup in E.
Qed.

(** C7. A node whose type is neither "folder" nor "url", a missing type
    included, adds no record and raises nothing, whatever it holds: its
    children are not visited. *)
Theorem other_type_dropped (d : dict) (acc : list dict) (path : pyval)
    (Hfolder : Dict.lookup d "type" <> Some (PStr "folder"))
    (Hurl : Dict.lookup d "type" <> Some (PStr "url")) :
  traverse_bookmarks (PDict d) acc path = Ok acc.
Proof.
  simpl. now rewrite !eq_str_false.
Qed.

Lemma other_type_dropped_witness :
  traverse_bookmarks (PDict separator_node) [] (PStr "Bar") = Ok [].
Proof.
  apply (other_type_dropped separator_node [] (PStr "Bar")); discriminate.
Defined.

(** ** Folders and the order of the records *)

Lemma for_each_children cs :
  Forall traverse_spec cs ->
  forall acc path,
    forallb well_formed cs = true ->
    for_each (fun child acc => traverse_bookmarks child acc path) cs acc =
    Ok (acc ++ flat_map (fun child => records_of child path) cs)%list.
Proof.
  induction 1 as [|c cs Hc _ IH]; intros acc path Hwf; simpl.
  - now rewrite app_nil_r.
  - simpl in Hwf. apply andb_true_iff in Hwf as [Hwc Hwcs].
    rewrite (Hc acc path Hwc), IH by assumption.
    now rewrite app_assoc.
Qed.

Lemma traverse_records node :
  traverse_spec node /\
  (forall cs, node = PList cs -> Forall traverse_spec cs).
Proof.
  induction node as [| | | |l IH|d IH] using pyval_nested_ind;
    (split; [intros acc path Hwf; try discriminate | intros cs [=]]).
  - subst. eapply Forall_impl; [|exact IH]. now intros a [Ha _].
  - simpl in *.
    destruct (eq_str (Dict.get d "type" PNone) "folder").
    + rewrite !DictFacts.case_lookup. rewrite DictFacts.case_lookup in Hwf.
      destruct (Dict.lookup d "children") as [children|] eqn:E.
      * destruct children as [| | | |cs|]; try discriminate.
        apply DictFacts.lookup_In in E.
        rewrite Forall_forall in IH. specialize (IH _ E) as [_ IH].
        now apply for_each_children; [apply IH|].
      * now rewrite app_nil_r.
    + destruct (eq_str (Dict.get d "type" PNone) "url");
        [reflexivity | now rewrite app_nil_r].
Qed.

Lemma traverse_well_formed node acc path :
  well_formed node = true ->
  traverse_bookmarks node acc path = Ok (acc ++ records_of node path)%list.
Proof. apply traverse_records. Qed.

Lemma printed_nil w : printed w [] = w.
Proof. destruct w. unfold printed. simpl. now rewrite app_nil_r. Qed.

Lemma collect_root_well_formed rd key acc w :
  well_formed_root rd key = true ->
  collect_root rd key acc w =
  (printed w (root_lines rd key), Done (acc ++ root_records rd key)%list).
Proof.
  unfold well_formed_root, collect_root, root_records, root_lines.
  intros H.
  destruct (Dict.get rd key (PDict [])) as [| | | | |r] eqn:E;
    destruct (truthy _) eqn:T; cbn [negb orb] in H;
    try discriminate;
    try (unfold IO.bind, IO.print, IO.ret, printed; simpl;
         now rewrite app_nil_r).
  rewrite printed_nil.
  unfold IO.lift. now rewrite (traverse_well_formed (PDict r) acc _ H).
Qed.

Lemma append_assoc (s t u : string) : ((s ++ t) ++ u = s ++ (t ++ u))%string.
Proof. induction s as [|ch s IH]; simpl; [reflexivity | now rewrite IH]. Qed.

Lemma traverse_folder name cs acc path :
  traverse_bookmarks (folder name cs) acc path =
  for_each (fun child acc =>
              traverse_bookmarks child acc (folder_path path (PStr name)))
           cs acc.
Proof. reflexivity. Qed.

Lemma records_of_folder name cs path :
  records_of (folder name cs) path =
  flat_map (fun child => records_of child (folder_path path (PStr name))) cs.
Proof. reflexivity. Qed.

Lemma folder_path_truthy path name :
  truthy path = true ->
  folder_path path name = PStr (py_str path ++ "/" ++ py_str name).
Proof. unfold folder_path. now intros ->. Qed.

Lemma truthy_str s : s <> ""%string -> truthy (PStr s) = true.
Proof.
  intros H. simpl. destruct (String.eqb_spec s ""); [contradiction | reflexivity].
Qed.

Lemma truthy_path_str s t : truthy (PStr (s ++ "/" ++ t)) = true.
Proof. apply truthy_str. destruct s; discriminate. Qed.

(** C3. On a well-formed document [get_all_bookmarks] returns the records
    of [bookmark_bar], then those of [other], then those of [synced]; the
    records of a folder are those of its children, one child after the
    other in the order of the document. *)
Theorem records_in_document_order (data : pyval) (w : world)
    (Hwf : well_formed_document data = true) :
  (exists w',
      get_all_bookmarks data w = (w', Done (document_records data)) /\
      files w' = files w) /\
  (forall name cs path,
      records_of (folder name cs) path =
      flat_map (fun child => records_of child (folder_path path (PStr name))) cs).
Proof.
  split; [|intros; apply records_of_folder].
  destruct data as [| | | | |top]; try discriminate.
  unfold well_formed_document in Hwf.
  unfold get_all_bookmarks, document_records.
  destruct (Dict.get top "roots" (PDict [])) as [| | | | |rd];
    try (apply negb_true_iff in Hwf; rewrite Hwf;
         eexists; split; reflexivity).
  - destruct rd as [|kv rd]; [eexists; split; reflexivity|].
    change (truthy (PDict (kv :: rd))) with true.
    set (rd' := kv :: rd) in *.
    apply andb_true_iff in Hwf as [H1 Hwf].
    apply andb_true_iff in Hwf as [H2 Hwf].
    apply andb_true_iff in Hwf as [H3 _].
    cbn [negb roots IO.for_each]. unfold IO.bind.
    rewrite (collect_root_well_formed rd' "bookmark_bar" [] w H1).
    rewrite (collect_root_well_formed rd' "other" _ _ H2).
    rewrite (collect_root_well_formed rd' "synced" _ _ H3).
    unfold IO.ret. eexists. split.
    + simpl app at 4. now rewrite <- app_assoc.
    + reflexivity.
Qed.

Lemma records_in_document_order_witness :
  (exists w',
      get_all_bookmarks two_root_document init_world =
      (w', Done (document_records two_root_document)) /\
      files w' = files init_world) /\
  (forall name cs path,
      records_of (folder name cs) path =
      flat_map (fun child => records_of child (folder_path path (PStr name))) cs).
Proof.
  apply (records_in_document_order two_root_document init_world). reflexivity.
Defined.

(** The names of the records of [two_root_document], in the order
    returned. *)
Example two_root_document_names :
  map (fun bm => Dict.get bm "name" PNone)
      (document_records two_root_document) =
  [PStr "w1"; PStr "b1"; PStr "o1"]%string.
Proof. reflexivity. Qed.

(** ** Paths *)

Lemma make_bookmark_path d path :
  Dict.lookup (make_bookmark d path) "path" = Some path.
Proof. unfold make_bookmark. now rewrite copy_items_lookup. Qed.

(** C1. For a root folder [a] holding folder [b] holding folder [c]
    holding a url node, [get_all_bookmarks] gives the record the path
    [a/a/b/c]: the root's name is there twice, once as the initial path
    and once appended by the traversal of the root folder.  The traversal
    of the same root from the empty path gives [a/b/c]. *)
Theorem root_name_twice_in_path (a b c : string) (u : dict)
    (Hurl : Dict.lookup u "type" = Some (PStr "url"))
    (Ha : a <> ""%string) :
  (exists r,
      get_all_bookmarks (chain_document a b c u) init_world =
      (printed init_world [no_root_msg "other"; no_root_msg "synced"],
       Done [r]) /\
      Dict.lookup r "path" =
      Some (PStr (a ++ "/" ++ a ++ "/" ++ b ++ "/" ++ c))) /\
  (exists r,
      traverse_bookmarks (folder a [folder b [folder c [PDict u]]]) []
        (PStr "") = Ok [r] /\
      Dict.lookup r "path" = Some (PStr (a ++ "/" ++ b ++ "/" ++ c))).
Proof.
  pose proof (truthy_str a Ha) as Ta.
  split.
  - exists (make_bookmark u (PStr (a ++ "/" ++ a ++ "/" ++ b ++ "/" ++ c))).
    split; [|apply make_bookmark_path].
    unfold get_all_bookmarks, chain_document.
    change (Dict.get _ "roots" (PDict []))
      with (PDict [("bookmark_bar", folder a [folder b [folder c [PDict u]]])]%string).
    cbn [truthy negb roots IO.for_each]. unfold IO.bind.
    unfold collect_root at 1.
    change (Dict.get _ "bookmark_bar" (PDict []))
      with (folder a [folder b [folder c [PDict u]]]).
    change (truthy (folder a _)) with true. cbn [negb].
    unfold folder at 1.
    change (Dict.get _ "name" (PStr "bookmark_bar")) with (PStr a).
    fold (folder a [folder b [folder c [PDict u]]]).
    rewrite traverse_folder. cbn [for_each].
    rewrite traverse_folder. cbn [for_each].
    rewrite traverse_folder. cbn [for_each].
    rewrite (folder_path_truthy (PStr a) _ Ta). cbn [py_str].
    rewrite (folder_path_truthy (PStr (_ ++ "/" ++ _)) (PStr b))
      by apply truthy_path_str.
    cbn [py_str].
    rewrite (folder_path_truthy (PStr (_ ++ "/" ++ _)) (PStr c))
      by apply truthy_path_str.
    rewrite traverse_url by assumption.
    cbn [py_str IO.lift app].
    rewrite !append_assoc. reflexivity.
  - exists (make_bookmark u (PStr (a ++ "/" ++ b ++ "/" ++ c))).
    split; [|apply make_bookmark_path].
    rewrite traverse_folder. cbn [for_each].
    rewrite traverse_folder. cbn [for_each].
    rewrite traverse_folder. cbn [for_each].
    change (folder_path (PStr "") (PStr a)) with (PStr a).
    rewrite (folder_path_truthy (PStr a) _ Ta). cbn [py_str].
    rewrite (folder_path_truthy (PStr (_ ++ "/" ++ _)) (PStr c))
      by apply truthy_path_str.
    rewrite traverse_url by assumption.
    cbn [py_str app].
    rewrite !append_assoc. reflexivity.
Qed.

Lemma root_name_twice_in_path_witness :
  (exists r,
      get_all_bookmarks (chain_document "A" "B" "C" leaf_url) init_world =
      (printed init_world [no_root_msg "other"; no_root_msg "synced"],
       Done [r]) /\
      Dict.lookup r "path" = Some (PStr "A/A/B/C")) /\
  (exists r,
      traverse_bookmarks (folder "A" [folder "B" [folder "C" [PDict leaf_url]]]) []
        (PStr "") = Ok [r] /\
      Dict.lookup r "path" = Some (PStr "A/B/C")).
Proof.
  apply (root_name_twice_in_path "A" "B" "C" leaf_url);
    [reflexivity | discriminate].
Defined.

(** ** Empty inputs *)

(** C8. When [roots] is absent or empty [get_all_bookmarks] prints its
    diagnostic and returns the empty list, and [export_to_csv] on the empty
    list prints its diagnostic and returns: no file is written and nothing
    is raised. *)
Theorem empty_inputs_degrade (top : dict) (w : world)
    (open_error : string -> option string) (output_file : string)
    (Hroots : Dict.lookup top "roots" = None \/
              Dict.lookup top "roots" = Some (PDict [])) :
  get_all_bookmarks (PDict top) w = (printed w [no_roots_msg], Done []) /\
  export_to_csv open_error [] output_file w =
    (printed w ["No bookmarks to export."%string], Done tt) /\
  files (printed w ["No bookmarks to export."%string]) = files w.
Proof.
  split; [|split; reflexivity].
  unfold get_all_bookmarks, Dict.get.
  destruct Hroots as [-> | ->]; reflexivity.
Qed.

Lemma empty_inputs_degrade_witness :
  get_all_bookmarks (PDict [("roots", PDict [])]%string) init_world =
    (printed init_world [no_roots_msg], Done []) /\
  export_to_csv (fun _ => None) [] "vivaldi_bookmarks.csv" init_world =
    (printed init_world ["No bookmarks to export."%string], Done tt) /\
  files (printed init_world ["No bookmarks to export."%string]) =
    files init_world.
Proof.
  apply (empty_inputs_degrade [("roots", PDict [])]%string init_world
           (fun _ => None) "vivaldi_bookmarks.csv").
  right. reflexivity.
Defined.

(** ** Falsy roots *)

Lemma collect_root_falsy rd key v bookmarks w :
  Dict.lookup rd key = Some v ->
  truthy v = false ->
  collect_root rd key bookmarks w = (printed w [no_root_msg key], Done bookmarks).
Proof.
  intros Hv Hf. unfold collect_root.
  rewrite (DictFacts.get_lookup _ _ _ _ Hv), Hf. reflexivity.
Qed.

Lemma collect_root_absent rd key bookmarks w :
  Dict.lookup rd key = None ->
  collect_root rd key bookmarks w = (printed w [no_root_msg key], Done bookmarks).
Proof.
  intros Hv. unfold collect_root.
  rewrite (DictFacts.get_absent _ _ _ Hv). reflexivity.
Qed.

Lemma collect_root_remove rd key v k bookmarks w :
  Dict.lookup rd key = Some v ->
  truthy v = false ->
  collect_root (Dict.remove rd key) k bookmarks w = collect_root rd k bookmarks w.
Proof.
  intros Hv Hf.
  destruct (String.eqb_spec key k) as [<-|Hne].
  - rewrite (collect_root_falsy _ _ _ _ _ Hv Hf).
    apply collect_root_absent, DictFacts.lookup_remove_eq.
  - unfold collect_root, Dict.get.
    now rewrite DictFacts.lookup_remove_ne.
Qed.

Lemma io_for_each_ext {A S} (f g : A -> S -> io S) l :
  (forall x s w, f x s w = g x s w) ->
  forall s w, IO.for_each f l s w = IO.for_each g l s w.
Proof.
  intros H. induction l as [|x l IH]; intros s w; simpl; [reflexivity|].
  unfold IO.bind. rewrite H.
  destruct (g x s w) as [w' [a|st]]; [apply IH | reflexivity].
Qed.

(** C10. A root whose value is present but falsy is handled as an absent
    root is: the loop prints the same diagnostic, leaves the list as it is
    and does not traverse the value; the document without that key gives
    the same result as long as other keys are left under [roots]. *)
Theorem falsy_root_is_absent_root (rd : dict) (root_key : string) (v : pyval)
    (bookmarks : list dict) (w : world)
    (Hv : Dict.lookup rd root_key = Some v)
    (Hfalsy : truthy v = false) :
  collect_root rd root_key bookmarks w =
    (printed w [no_root_msg root_key], Done bookmarks) /\
  collect_root (Dict.remove rd root_key) root_key bookmarks w =
    collect_root rd root_key bookmarks w /\
  (Dict.remove rd root_key <> [] ->
   get_all_bookmarks (PDict [("roots", PDict (Dict.remove rd root_key))]%string) w =
   get_all_bookmarks (PDict [("roots", PDict rd)]%string) w).
Proof.
  split; [now apply (collect_root_falsy rd root_key v)|].
  split; [now apply (collect_root_remove rd root_key v)|].
  intros Hne. unfold get_all_bookmarks.
  unfold Dict.get. cbn [Dict.lookup]. rewrite String.eqb_refl.
  destruct (Dict.remove rd root_key) as [|kv rest] eqn:E; [contradiction|].
  destruct rd as [|kv0 rd0]; [discriminate|].
  cbn [truthy negb]. rewrite <- E.
  apply io_for_each_ext. intros k s w0.
  now apply (collect_root_remove _ root_key v).
Qed.

Lemma falsy_root_is_absent_root_witness :
  collect_root roots_with_empty_other "other" [] init_world =
    (printed init_world [no_root_msg "other"], Done []) /\
  collect_root (Dict.remove roots_with_empty_other "other") "other" [] init_world =
    collect_root roots_with_empty_other "other" [] init_world /\
  (Dict.remove roots_with_empty_other "other" <> [] ->
   get_all_bookmarks
     (PDict [("roots", PDict (Dict.remove roots_with_empty_other "other"))]%string)
     init_world =
   get_all_bookmarks (PDict [("roots", PDict roots_with_empty_other)]%string)
     init_world).
Proof.
  apply (falsy_root_is_absent_root roots_with_empty_other "other" (PDict []) []
           init_world); reflexivity.
Defined.

(** ** The decoding step *)

Lemma decode_bookmark_lookup bm k :
  k <> "date_added"%string -> k <> "date_modified"%string ->
  Dict.lookup (decode_bookmark bm) k = Dict.lookup bm k.
Proof.
  intros H1 H2. unfold decode_bookmark.
  rewrite !DictFacts.lookup_set_ne by congruence. reflexivity.
Qed.

Lemma mem_set_other d k v k' :
  Dict.mem d k' = true -> Dict.mem (Dict.set d k v) k' = true.
Proof.
  unfold Dict.mem. destruct (String.eqb_spec k k') as [->|Hne].
  - now rewrite DictFacts.lookup_set_eq.
  - now rewrite DictFacts.lookup_set_ne.
Qed.

Lemma decode_bookmark_keys bm :
  Dict.mem bm "date_added" = true -> Dict.mem bm "date_modified" = true ->
  Dict.keys (decode_bookmark bm) = Dict.keys bm.
Proof.
  intros H1 H2. unfold decode_bookmark.
  rewrite DictFacts.keys_set_present by now apply mem_set_other.
  now apply DictFacts.keys_set_present.
Qed.

(** C9. The decoding step of [main] keeps the number and the order of the
    records, and in each record changes nothing but [date_added] and
    [date_modified]: every other key has the value it had, and a record
    that has both dates keeps its keys. *)
Theorem decoding_changes_dates_only (bookmarks : list dict) (i : nat)
    (k : string)
    (Hadded : k <> "date_added"%string)
    (Hmodified : k <> "date_modified"%string) :
  List.length (decode_timestamps bookmarks) = List.length bookmarks /\
  option_map (fun bm => Dict.lookup bm k) (nth_error (decode_timestamps bookmarks) i) =
    option_map (fun bm => Dict.lookup bm k) (nth_error bookmarks i) /\
  (forall bm,
      nth_error bookmarks i = Some bm ->
      Dict.mem bm "date_added" = true ->
      Dict.mem bm "date_modified" = true ->
      option_map Dict.keys (nth_error (decode_timestamps bookmarks) i) =
      Some (Dict.keys bm)).
Proof.
  unfold decode_timestamps. split; [apply length_map|].
  rewrite nth_error_map. split.
  - destruct (nth_error bookmarks i) as [bm|]; simpl; [|reflexivity].
    now rewrite decode_bookmark_lookup.
  - intros bm -> H1 H2. simpl. now rewrite decode_bookmark_keys.
Qed.

Lemma decoding_changes_dates_only_witness :
  List.length (decode_timestamps dated_records) = List.length dated_records /\
  option_map (fun bm => Dict.lookup bm "tags")
    (nth_error (decode_timestamps dated_records) 1) =
    option_map (fun bm => Dict.lookup bm "tags") (nth_error dated_records 1) /\
  (forall bm,
      nth_error dated_records 1 = Some bm ->
      Dict.mem bm "date_added" = true ->
      Dict.mem bm "date_modified" = true ->
      option_map Dict.keys (nth_error (decode_timestamps dated_records) 1) =
      Some (Dict.keys bm)).
Proof.
  apply (decoding_changes_dates_only dated_records 1 "tags"); discriminate.
Defined.

(** What the step does to the dates of [dated_records]. *)
Example dated_records_decoded :
  map (fun bm => (Dict.get bm "date_added" PNone, Dict.get bm "date_modified" PNone))
      (decode_timestamps dated_records) =
  [ (PStr "", PStr "");
    (PStr "2021-01-01 00:00:00", PStr "soon") ]%string.
Proof. vm_compute. reflexivity. Qed.

(** ** The header of the export *)

Module StringOrder.

Lemma ascii_compare_refl c : Ascii.compare c c = Eq.
Proof. unfold Ascii.compare. apply N.compare_refl. Qed.

Lemma ascii_compare_trans c1 c2 c3 :
  Ascii.compare c1 c2 = Lt -> Ascii.compare c2 c3 = Lt ->
  Ascii.compare c1 c3 = Lt.
Proof.
  unfold Ascii.compare. rewrite !N.compare_lt_iff. apply N.lt_trans.
Qed.

Lemma compare_refl s : String.compare s s = Eq.
Proof.
  induction s as [|c s IH]; simpl; [reflexivity|].
  now rewrite ascii_compare_refl.
Qed.

Lemma lt_trans a b c : str_lt a b -> str_lt b c -> str_lt a c.
Proof.
  unfold str_lt. revert b c.
  induction a as [|x a IH]; intros [|y b] [|z c]; simpl; try discriminate;
    try reflexivity.
  destruct (Ascii.compare x y) eqn:Exy; try discriminate;
    destruct (Ascii.compare y z) eqn:Eyz; try discriminate; intros H1 H2.
  - apply Ascii.compare_eq_iff in Exy, Eyz. subst.
    rewrite ascii_compare_refl. now apply (IH b).
  - apply Ascii.compare_eq_iff in Exy. subst. now rewrite Eyz.
  - apply Ascii.compare_eq_iff in Eyz. subst. now rewrite Exy.
  - now rewrite (ascii_compare_trans x y z).
Qed.

Lemma lt_irrefl a : ~ str_lt a a.
Proof. unfold str_lt. now rewrite compare_refl. Qed.

Lemma leb_true_lt a b : String.leb a b = true -> a <> b -> str_lt a b.
Proof.
  unfold String.leb, str_lt. intros H Hne.
  destruct (String.compare a b) eqn:E; try discriminate; [|reflexivity].
  now apply String.compare_eq_iff in E.
Qed.

Lemma leb_false_lt a b : String.leb a b = false -> str_lt b a.
Proof.
  unfold String.leb, str_lt. rewrite (String.compare_antisym a b).
  now destruct (String.compare b a).
Qed.

End StringOrder.

Module HeadersFacts.

Lemma existsb_eqb k s : existsb (String.eqb k) s = true <-> In k s.
Proof.
  rewrite existsb_exists. split.
  - intros [x [Hx E]]. apply String.eqb_eq in E. now subst.
  - intros H. exists k. split; [assumption | apply String.eqb_refl].
Qed.

Lemma add_In x k s : In x (Headers.add k s) <-> x = k \/ In x s.
Proof.
  unfold Headers.add. destruct (existsb _ s) eqn:E.
  - apply existsb_eqb in E. split; [tauto | intros [->|]; assumption].
  - rewrite in_app_iff. simpl. intuition congruence.
Qed.

Lemma add_NoDup k s : NoDup s -> NoDup (Headers.add k s).
Proof.
  intros H. unfold Headers.add. destruct (existsb _ s) eqn:E; [assumption|].
  assert (Hk : ~ In k s).
  { intros Hin. apply existsb_eqb in Hin. congruence. }
  apply NoDup_rev in H. rewrite <- (rev_involutive (_ ++ _)%list).
  apply NoDup_rev. rewrite rev_app_distr. simpl.
  constructor; [now rewrite <- in_rev | assumption].
Qed.

Lemma update_In x ks s : In x (Headers.update s ks) <-> In x s \/ In x ks.
Proof.
  unfold Headers.update. revert s.
  induction ks as [|k ks IH]; intros s; simpl; [tauto|].
  rewrite IH, add_In. intuition congruence.
Qed.

Lemma update_NoDup ks s : NoDup s -> NoDup (Headers.update s ks).
Proof.
  unfold Headers.update. revert s.
  induction ks as [|k ks IH]; intros s H; simpl; [assumption|].
  now apply IH, add_NoDup.
Qed.

Lemma collect_from_In x bms s :
  In x (fold_left (fun acc bm => Headers.update acc (Dict.keys bm)) bms s) <->
  In x s \/ exists bm, In bm bms /\ In x (Dict.keys bm).
Proof.
  revert s. induction bms as [|bm bms IH]; intros s; simpl.
  - split; [tauto | intros [H | [bm [[] _]]]; assumption].
  - rewrite IH, update_In. split.
    + intros [[H | H] | [bm' [H1 H2]]]; eauto.
    + intros [H | [bm' [[<- | H1] H2]]]; eauto.
Qed.

Lemma collect_In x bms :
  In x (Headers.collect bms) <-> exists bm, In bm bms /\ In x (Dict.keys bm).
Proof.
  unfold Headers.collect. rewrite collect_from_In. simpl. tauto.
Qed.

Lemma collect_NoDup bms : NoDup (Headers.collect bms).
Proof.
  unfold Headers.collect. generalize (NoDup_nil string).
  generalize (@nil string).
  induction bms as [|bm bms IH]; intros s H; simpl; [assumption|].
  now apply IH, update_NoDup.
Qed.

Lemma insert_In x k l : In x (Headers.insert k l) <-> x = k \/ In x l.
Proof.
  induction l as [|y l IH]; simpl; [intuition congruence|].
  destruct (String.leb k y); simpl; [intuition congruence|].
  rewrite IH. intuition congruence.
Qed.

Lemma sorted_In x l : In x (Headers.sorted l) <-> In x l.
Proof.
  unfold Headers.sorted. induction l as [|y l IH]; simpl; [tauto|].
  rewrite insert_In, IH. intuition congruence.
Qed.

Lemma insert_sorted k l :
  StronglySorted str_lt l -> ~ In k l ->
  StronglySorted str_lt (Headers.insert k l).
Proof.
  induction 1 as [|y l Hl IH Hy]; intros Hk; simpl.
  - repeat constructor.
  - destruct (String.leb k y) eqn:E.
    + assert (Hky : str_lt k y).
      { apply StringOrder.leb_true_lt; [assumption|].
        intros ->. apply Hk. now left. }
      constructor; [now constructor|].
      constructor; [assumption|].
      rewrite Forall_forall in *. intros z Hz.
      apply (StringOrder.lt_trans k y z); auto.
    + apply StringOrder.leb_false_lt in E.
      constructor.
      * apply IH. intros Hin. apply Hk. now right.
      * rewrite Forall_forall in *. intros z Hz.
        apply insert_In in Hz as [->|Hz]; auto.
Qed.

Lemma sorted_sorted l : NoDup l -> StronglySorted str_lt (Headers.sorted l).
Proof.
  unfold Headers.sorted. induction 1 as [|y l Hy Hl IH]; simpl.
  - constructor.
  - apply insert_sorted; [assumption|].
    now rewrite (sorted_In y l).
Qed.

End HeadersFacts.

(** C6. For a list of records that is not empty and a destination that
    can be written, [export_to_csv] writes a header row and then one row
    per record in the order of the list.  The header is strictly
    increasing in the order of strings and holds exactly the keys of the
    records; a field is the record's value for the column, or the empty
    string when the record has no such key.  For the records [{a:1,b:2}]
    and [{a:3,c:4}] the header is [a,b,c] and the second row has an empty
    [b]. *)
Theorem export_header_and_rows (open_error : string -> option string)
    (bookmarks : list dict) (output_file : string) (w : world)
    (Hne : bookmarks <> [])
    (Hopen : open_error output_file = None) :
  (exists headers,
      export_to_csv open_error bookmarks output_file w =
      (mkWorld
         (stdout w ++ ["Bookmarks successfully exported to " ++ output_file]%string)
         ((output_file,
           map PStr headers ::
           map (fun bm =>
                  map (fun h =>
                         match Dict.lookup bm h with
                         | Some v => v
                         | None => PStr ""
                         end) headers) bookmarks) :: files w),
       Done tt) /\
      StronglySorted str_lt headers /\
      (forall k, In k headers <->
                 exists bm, In bm bookmarks /\ In k (Dict.keys bm))) /\
  export_to_csv open_error ab_ac_records output_file w =
  (mkWorld
     (stdout w ++ ["Bookmarks successfully exported to " ++ output_file]%string)
     ((output_file,
       [ [PStr "a"; PStr "b"; PStr "c"];
         [PInt 1; PInt 2; PStr ""];
         [PInt 3; PStr ""; PInt 4] ]%string) :: files w),
   Done tt).
Proof.
  split.
  - exists (Headers.sorted (Headers.collect bookmarks)). split; [|split].
    + destruct bookmarks as [|bm bms]; [contradiction|].
      unfold export_to_csv. rewrite Hopen. reflexivity.
    + apply HeadersFacts.sorted_sorted, HeadersFacts.collect_NoDup.
    + intros k. rewrite HeadersFacts.sorted_In. apply HeadersFacts.collect_In.
  - unfold export_to_csv, ab_ac_records. rewrite Hopen. reflexivity.
Qed.

Lemma export_header_and_rows_witness :
  (exists headers,
      export_to_csv (fun _ => None) ab_ac_records "out.csv" init_world =
      (mkWorld
         (stdout init_world ++ ["Bookmarks successfully exported to " ++ "out.csv"]%string)
         (("out.csv"%string,
           map PStr headers ::
           map (fun bm =>
                  map (fun h =>
                         match Dict.lookup bm h with
                         | Some v => v
                         | None => PStr ""
                         end) headers) ab_ac_records) :: files init_world),
       Done tt) /\
      StronglySorted str_lt headers /\
      (forall k, In k headers <->
                 exists bm, In bm ab_ac_records /\ In k (Dict.keys bm))) /\
  export_to_csv (fun _ => None) ab_ac_records "out.csv" init_world =
  (mkWorld
     (stdout init_world ++ ["Bookmarks successfully exported to " ++ "out.csv"]%string)
     (("out.csv"%string,
       [ [PStr "a"; PStr "b"; PStr "c"];
         [PInt 1; PInt 2; PStr ""];
         [PInt 3; PStr ""; PInt 4] ]%string) :: files init_world),
   Done tt).
Proof.
  apply (export_header_and_rows (fun _ => None) ab_ac_records "out.csv"
           init_world); [discriminate | reflexivity].
Defined.

(** ** The timestamp decoder *)

Lemma convert_failure v e :
  convert_body v = Raise e -> convert_webkit_timestamp v = v.
Proof. unfold convert_webkit_timestamp. now intros ->. Qed.

Lemma convert_unparsed raw :
  PyInt.of_string raw = None -> convert_body (PStr raw) = Raise ValueError.
Proof. unfold convert_body. simpl. now intros ->. Qed.

(** C4. The decoder always returns a string.  When the conversion fails,
    because the text is not an integer ([ValueError]) or because the
    date is out of range ([OverflowError]), it returns the text it was
    given. *)
Theorem decoder_returns_input_on_failure (raw : string) :
  (PyInt.of_string raw = None ->
   convert_webkit_timestamp (PStr raw) = PStr raw) /\
  (forall e, convert_body (PStr raw) = Raise e ->
             convert_webkit_timestamp (PStr raw) = PStr raw) /\
  (exists s, convert_webkit_timestamp (PStr raw) = PStr s) /\
  convert_webkit_timestamp (PStr "not_a_number") = PStr "not_a_number" /\
  convert_webkit_timestamp (PStr "") = PStr "" /\
  convert_body (PStr "999999999999999999999999999999") = Raise OverflowError /\
  convert_webkit_timestamp (PStr "999999999999999999999999999999") =
    PStr "999999999999999999999999999999".
Proof.
  split; [|split; [|split]].
  - intros H. now apply (convert_failure _ ValueError), convert_unparsed.
  - intros e. apply convert_failure.
  - unfold convert_webkit_timestamp.
    destruct (convert_body (PStr raw)) as [s|e]; eauto.
  - repeat split; vm_compute; reflexivity.
Qed.

Lemma decoder_returns_input_on_failure_witness :
  convert_webkit_timestamp (PStr "12 34") = PStr "12 34".
Proof.
  apply (proj1 (decoder_returns_input_on_failure "12 34")). reflexivity.
Defined.

(** ** Exactness of the decoder on its working range *)

Module FloatFacts.

Lemma round_half_even_bounds a b :
  0 < b -> - b <= 2 * (b * Float.round_half_even a b - a) <= b.
Proof.
  intros Hb. unfold Float.round_half_even.
  pose proof (Z.div_mod a b ltac:(lia)) as Hdm.
  pose proof (Z.mod_pos_bound a b Hb) as Hm.
  destruct (2 * (a mod b) <? b) eqn:E1; [apply Z.ltb_lt in E1; nia|].
  apply Z.ltb_ge in E1.
  destruct (b <? 2 * (a mod b)) eqn:E2; [apply Z.ltb_lt in E2; nia|].
  apply Z.ltb_ge in E2.
  destruct (Z.even (a / b)); nia.
Qed.

Lemma round_half_even_nonneg a b :
  0 < b -> 0 <= a -> 0 <= Float.round_half_even a b.
Proof.
  intros Hb Ha. pose proof (round_half_even_bounds a b Hb). nia.
Qed.

Lemma pow2_pos e : 0 <= e -> 0 < 2 ^ e.
Proof. intros. apply Z.pow_pos_nonneg; lia. Qed.

Lemma pow2_split x y : 0 <= x -> 0 <= y -> 2 ^ (x + y) = 2 ^ x * 2 ^ y.
Proof. intros. apply Z.pow_add_r; assumption. Qed.

(** The shift that [true_divide] applies brings the quotient into the
    53 bit range. *)
Lemma binade_shift a d :
  0 < a -> 0 < d -> Float.binade a d <= 52 ->
  d * 2 ^ 52 <= a * 2 ^ (52 - Float.binade a d) < d * 2 ^ 53.
Proof.
  intros Ha Hd. unfold Float.binade.
  pose proof (Z.log2_spec a Ha) as [La Ua].
  pose proof (Z.log2_spec d Hd) as [Ld Ud].
  pose proof (Z.log2_nonneg a) as Na.
  pose proof (Z.log2_nonneg d) as Nd.
  set (la := Z.log2 a) in *. set (ld := Z.log2 d) in *.
  rewrite <- Z.add_1_r in Ua, Ud.
  rewrite pow2_split in Ua, Ud by lia.
  change (2 ^ 1) with 2 in *. change (2 ^ 53) with (2 * 2 ^ 52).
  pose proof (pow2_pos la Na) as Pa. pose proof (pow2_pos ld Nd) as Pd.
  destruct (Z.le_gt_cases 0 (la - ld)) as [He|He].
  - rewrite (Z.max_r 0 (la - ld)), (Z.max_l 0 (- (la - ld))) by lia.
    change (2 ^ 0) with 1.
    assert (Hla : 2 ^ la = 2 ^ ld * 2 ^ (la - ld)).
    { rewrite <- pow2_split by lia. f_equal. lia. }
    pose proof (pow2_pos (la - ld) He) as Pe.
    destruct (d * 2 ^ (la - ld) <=? a * 1) eqn:T; intros HE.
    + apply Z.leb_le in T.
      assert (H52 : 2 ^ 52 = 2 ^ (la - ld) * 2 ^ (52 - (la - ld))).
      { rewrite <- pow2_split by lia. f_equal. lia. }
      pose proof (pow2_pos (52 - (la - ld)) ltac:(lia)) as Ps.
      rewrite H52. nia.
    + apply Z.leb_gt in T.
      replace (52 - (la - ld - 1)) with (53 - (la - ld)) by lia.
      assert (H53 : 2 * 2 ^ 52 = 2 ^ (la - ld) * 2 ^ (53 - (la - ld))).
      { rewrite <- pow2_split by lia.
        change (2 * 2 ^ 52) with (2 ^ 53). f_equal. lia. }
      pose proof (pow2_pos (53 - (la - ld)) ltac:(lia)) as Ps.
      nia.
  - rewrite (Z.max_l 0 (la - ld)), (Z.max_r 0 (- (la - ld))) by lia.
    change (2 ^ 0) with 1.
    assert (Hld : 2 ^ ld = 2 ^ la * 2 ^ (- (la - ld))).
    { rewrite <- pow2_split by lia. f_equal. lia. }
    pose proof (pow2_pos (- (la - ld)) ltac:(lia)) as Pe.
    destruct (d * 1 <=? a * 2 ^ (- (la - ld))) eqn:T; intros HE.
    + apply Z.leb_le in T.
      replace (52 - (la - ld)) with (- (la - ld) + 52) by lia.
      rewrite pow2_split by lia. nia.
    + apply Z.leb_gt in T.
      replace (52 - (la - ld - 1)) with (- (la - ld) + 53) by lia.
      rewrite pow2_split by lia.
      change (2 ^ 53) with (2 * 2 ^ 52). nia.
Qed.

End FloatFacts.

Module DecoderRangeFacts.

Import DecoderRange.

Section Quotient.
Variables (n m sh : Z).
Hypothesis Hn : 0 < n < limit.
Hypothesis Hsh : 18 <= sh.
Hypothesis Hm : - D <= 2 * (D * m - n * 2 ^ sh) <= D.
Hypothesis Hnorm : D * 2 ^ 52 <= n * 2 ^ sh < D * 2 ^ 53.

Let P := 2 ^ sh.
Let q := n / D.
Let r := n mod D.

Lemma P_pos : 0 < P.
Proof. apply FloatFacts.pow2_pos. lia. Qed.

Lemma n_split : n = D * q + r /\ 0 <= r < D.
Proof.
  unfold q, r, D. split; [apply Z.div_mod; lia | apply Z.mod_pos_bound; lia].
Qed.

Lemma P_large : 2 ^ 19 <= P \/ (P = 2 ^ 18 /\ r <= 999998).
Proof.
  destruct (Z.eq_dec sh 18) as [->|Hne].
  - right. split; [reflexivity|].
    destruct Hnorm as [Hlow _]. clear Hm.
    unfold r, D, limit in *. change (2 ^ 18) with 262144 in Hlow.
    change (2 ^ 52) with 4503599627370496 in Hlow.
    assert (17179869184000000 <= n) by lia.
    pose proof (Z.div_mod n 1000000 ltac:(lia)).
    pose proof (Z.mod_pos_bound n 1000000 ltac:(lia)).
    assert (n / 1000000 = 17179869184) by lia.
    lia.
  - left. apply Z.pow_le_mono_r; lia.
Qed.

(** The quotient rounded to 53 bits has the whole seconds of the
    exact quotient. *)
Lemma whole_seconds : q * P <= m < (q + 1) * P.
Proof.
  pose proof P_pos as HP. pose proof n_split as [Hs Hr].
  pose proof P_large as HL. fold P in Hm, Hnorm.
  change (2 ^ 19) with 524288 in HL. change (2 ^ 18) with 262144 in HL.
  unfold D in *.
  assert (HnP : n * P = 1000000 * (q * P) + r * P) by (rewrite Hs at 1; ring).
  assert (HrP : 0 <= r * P) by nia.
  split.
  - nia.
  - destruct HL as [HL | [HL Hr']].
    + assert (r * P <= 999999 * P) by nia. nia.
    + assert (r * P <= 999998 * P) by nia. nia.
Qed.

Let f := m - q * P.

Lemma f_range : 0 <= f < P.
Proof. pose proof whole_seconds. unfold f. lia. Qed.

Lemma f_close : - D <= 2 * (D * f - r * P) <= D.
Proof.
  pose proof n_split as [Hs _]. fold P in Hm.
  replace (D * f - r * P) with (D * m - n * P); [assumption|].
  unfold f. rewrite Hs at 1. ring.
Qed.

(** Rounding the exact product of the fraction and [1e6] to the
    microsecond stays below a second. *)
Lemma micro_exact :
  0 <= Float.round_half_even (D * f) P < D.
Proof.
  pose proof P_pos as HP. pose proof f_range as Hf.
  pose proof f_close as Hc. pose proof n_split as [_ Hr].
  pose proof (FloatFacts.round_half_even_bounds (D * f) P HP) as Hb.
  unfold D in *.
  split; [apply FloatFacts.round_half_even_nonneg; nia|].
  assert (r * P <= 999999 * P) by (apply Z.mul_le_mono_nonneg_r; lia).
  destruct (Z.le_gt_cases P 1000000); nia.
Qed.

(** The same when the product itself had to be rounded to 53 bits. *)
Lemma micro_rounded :
  2 ^ 53 <= D * f ->
  let s := Z.log2 (D * f) - 52 in
  0 < s < sh /\
  0 <= Float.round_half_even (Float.round_half_even (D * f) (2 ^ s))
         (2 ^ (sh - s)) < D.
Proof.
  intros Hbig s.
  pose proof P_pos as HP. pose proof f_range as Hf.
  pose proof f_close as Hc. pose proof n_split as [_ Hr].
  assert (Ha : 0 < D * f) by (change (2 ^ 53) with 9007199254740992 in Hbig; lia).
  pose proof (Z.log2_spec (D * f) Ha) as [Hlo Hhi].
  assert (Hl53 : 53 <= Z.log2 (D * f)).
  { apply Z.log2_le_pow2; [assumption|assumption]. }
  assert (Hlsh : Z.log2 (D * f) < 20 + sh).
  { apply Z.log2_lt_pow2; [assumption|].
    rewrite FloatFacts.pow2_split by lia. fold P.
    change (2 ^ 20) with 1048576. unfold D in *. nia. }
  assert (Hs : 0 < s < sh) by (unfold s; lia).
  split; [assumption|].
  assert (HPs : P = 2 ^ s * 2 ^ (sh - s)).
  { unfold P. rewrite <- FloatFacts.pow2_split by lia. f_equal. lia. }
  assert (H33 : 2 ^ 33 <= 2 ^ (sh - s)).
  { apply Z.pow_le_mono_r; unfold s; lia. }
  change (2 ^ 33) with 8589934592 in H33.
  pose proof (FloatFacts.pow2_pos s ltac:(lia)) as Ps.
  pose proof (FloatFacts.pow2_pos (sh - s) ltac:(lia)) as Pt.
  pose proof (FloatFacts.round_half_even_bounds (D * f) (2 ^ s) Ps) as Hb1.
  set (m2 := Float.round_half_even (D * f) (2 ^ s)) in *.
  pose proof (FloatFacts.round_half_even_bounds m2 (2 ^ (sh - s)) Pt) as Hb2.
  assert (Hm2 : 0 <= m2).
  { unfold m2. apply FloatFacts.round_half_even_nonneg; lia. }
  split; [apply FloatFacts.round_half_even_nonneg; assumption|].
  set (u := Float.round_half_even m2 (2 ^ (sh - s))) in *.
  set (S := 2 ^ s) in *. set (T := 2 ^ (sh - s)) in *.
  unfold D in *.
  assert (r * P <= 999999 * P) by (apply Z.mul_le_mono_nonneg_r; lia).
  assert (HuP : 2 * (P * u) <= 2 * (S * m2) + P).
  { assert (S * (2 * (T * u - m2)) <= S * T)
      by (apply Z.mul_le_mono_nonneg_l; lia).
    rewrite HPs. lia. }
  assert (HSP : 8589934592 * S <= P).
  { rewrite HPs, (Z.mul_comm 8589934592 S).
    apply Z.mul_le_mono_nonneg_l; lia. }
  assert (HPu : P * u < P * 1000000) by lia.
  now apply (Z.mul_lt_mono_pos_l P) in HPu.
Qed.

End Quotient.

Lemma log2_D : Z.log2 D = 19.
Proof. reflexivity. Qed.

Lemma binade_le n : 0 < n < limit -> Float.binade n D <= 34.
Proof.
  intros Hn. unfold Float.binade. rewrite log2_D.
  assert (Z.log2 n < 54).
  { apply Z.log2_lt_pow2; [lia|].
    change (2 ^ 54) with 18014398509481984. unfold limit in Hn. lia. }
  destruct (_ <=? _); lia.
Qed.

(** What [timestamp_int / 1_000_000] is on the working range. *)
Lemma true_divide_range n :
  0 < n < limit ->
  exists m sh,
    Float.true_divide n D = Ok (Float.mk m (- sh)) /\
    18 <= sh /\ 0 <= m /\
    - D <= 2 * (D * m - n * 2 ^ sh) <= D /\
    D * 2 ^ 52 <= n * 2 ^ sh < D * 2 ^ 53.
Proof.
  intros Hn. pose proof (binade_le n Hn) as HE.
  pose proof (FloatFacts.binade_shift n D ltac:(lia) ltac:(unfold D; lia)
                ltac:(lia)) as Hnorm.
  set (sh := 52 - Float.binade n D) in *.
  assert (Hsh : 18 <= sh) by (unfold sh; lia).
  pose proof (FloatFacts.pow2_pos sh ltac:(lia)) as HP.
  pose proof (FloatFacts.round_half_even_bounds (n * 2 ^ sh) D
                ltac:(unfold D; lia)) as Hb.
  assert (Hm : 0 <= Float.round_half_even (n * 2 ^ sh) D).
  { apply FloatFacts.round_half_even_nonneg; [unfold D; lia | nia]. }
  exists (Float.round_half_even (n * 2 ^ sh) D), sh.
  repeat split; try assumption; try lia.
  unfold Float.true_divide.
  destruct (Z.eqb_spec n 0) as [->|_]; [lia|].
  rewrite (Z.abs_eq n) by lia. fold sh.
  destruct (Z.leb_spec 0 sh) as [_|Hneg]; [|lia].
  set (m := Float.round_half_even (n * 2 ^ sh) D) in *.
  assert (Hlog : Z.log2 m < 54).
  { destruct (Z.eq_dec m 0) as [->|Hm0]; [reflexivity|].
    apply Z.log2_lt_pow2; [lia|].
    change (2 ^ 54) with (2 * 2 ^ 53). unfold D in *. lia. }
  destruct (Z.leb_spec 1024 (Z.log2 m - sh)) as [Hov|_]; [lia|].
  rewrite (Z.sgn_pos n) by lia. now rewrite Z.mul_1_l.
Qed.

(** [timedelta(seconds=x)] has the whole seconds of the timestamp. *)
Lemma timedelta_range n m sh :
  0 < n < limit ->
  18 <= sh -> 0 <= m ->
  - D <= 2 * (D * m - n * 2 ^ sh) <= D ->
  D * 2 ^ 52 <= n * 2 ^ sh < D * 2 ^ 53 ->
  exists us,
    Datetime.timedelta_seconds (Float.mk m (- sh)) = Ok us /\
    us / D = n / D.
Proof.
  intros Hn Hsh Hm0 Hm Hnorm.
  pose proof (whole_seconds n m sh Hn Hsh Hm Hnorm) as Hw.
  pose proof (micro_exact n m sh Hn Hsh Hm Hnorm) as He.
  pose proof (micro_rounded n m sh Hn Hsh Hm Hnorm) as Hr.
  pose proof (FloatFacts.pow2_pos sh ltac:(lia)) as HP.
  set (P := 2 ^ sh) in *. set (q := n / D) in *.
  assert (Hq : 0 <= q < 17179869185).
  { unfold q, D, limit in *. split; [apply Z.div_pos; lia|].
    apply Z.div_lt_upper_bound; lia. }
  assert (Htrunc : Float.trunc (Float.mk m (- sh)) = q).
  { unfold Float.trunc. cbn [Float.de Float.dm].
    destruct (Z.leb_spec 0 (- sh)); [lia|].
    rewrite Z.opp_involutive. fold P.
    rewrite Z.quot_div_nonneg by lia.
    symmetry. apply (Z.div_unique m P q (m - q * P)); lia. }
  assert (Hfrac : Float.frac (Float.mk m (- sh)) = Float.mk (m - q * P) (- sh)).
  { unfold Float.frac. cbn [Float.de Float.dm].
    destruct (Z.leb_spec 0 (- sh)); [lia|].
    rewrite Z.opp_involutive. fold P.
    rewrite Z.rem_mod_nonneg by lia.
    f_equal. symmetry. apply (Z.mod_unique m P q (m - q * P)); lia. }
  set (f := m - q * P) in *.
  assert (Hus : exists u,
             0 <= u < D /\
             (if Float.is_zero (Float.mk f (- sh)) then q * D
              else q * D + Float.to_nearest
                             (Float.mul_int D (Float.mk f (- sh)))) =
             q * D + u).
  { unfold Float.is_zero. cbn [Float.dm].
    destruct (Z.eqb_spec f 0) as [Hf0|Hf0].
    - exists 0. unfold D. split; lia.
    - unfold Float.mul_int, Float.round53. cbn [Float.dm Float.de].
      assert (Hf : 0 < D * f) by (unfold D; lia).
      rewrite (Z.abs_eq (D * f)) by lia.
      destruct (Z.ltb_spec (D * f) (2 ^ 53)) as [Hsmall|Hbig].
      + exists (Float.round_half_even (D * f) P). split; [assumption|].
        unfold Float.to_nearest. cbn [Float.dm Float.de].
        destruct (Z.leb_spec 0 (- sh)); [lia|].
        now rewrite Z.opp_involutive.
      + specialize (Hr Hbig). cbn zeta in Hr. destruct Hr as [Hs Hu].
        set (s := Z.log2 (D * f) - 52) in *.
        exists (Float.round_half_even
                  (Float.round_half_even (D * f) (2 ^ s)) (2 ^ (sh - s))).
        split; [assumption|].
        unfold Float.to_nearest. cbn [Float.dm Float.de].
        destruct (Z.leb_spec 0 (- sh + s)); [lia|].
        rewrite (Z.sgn_pos (D * f)) by lia. rewrite Z.mul_1_l.
        replace (- (- sh + s)) with (sh - s) by lia. reflexivity. }
  destruct Hus as [u [Hu Hus]].
  exists (q * D + u). split.
  - unfold Datetime.timedelta_seconds.
    rewrite Htrunc, Hfrac.
    change Datetime.us_per_second with D. rewrite Hus.
    assert (Hdays : Z.abs ((q * D + u) / Datetime.us_per_day)
                    <= Datetime.max_delta_days).
    { unfold Datetime.us_per_day, Datetime.us_per_second,
        Datetime.max_delta_days, D in *.
      rewrite Z.abs_eq by (apply Z.div_pos; lia).
      apply Z.lt_le_incl, Z.div_lt_upper_bound; lia. }
    apply Z.leb_le in Hdays. now rewrite Hdays.
  - symmetry. apply (Z.div_unique (q * D + u) D q u); [lia|ring].
Qed.

End DecoderRangeFacts.

Lemma day_of_seconds a : a / 86400000000 = a / 1000000 / 86400.
Proof. now rewrite Z.div_div by lia. Qed.

Lemma second_of_day a : a mod 86400000000 / 1000000 = (a / 1000000) mod 86400.
Proof.
  change 86400000000 with (1000000 * 86400).
  rewrite Z.rem_mul_r by lia.
  rewrite (Z.mul_comm 1000000), Z.div_add by lia.
  rewrite (Z.div_small (a mod 1000000)) by (apply Z.mod_pos_bound; lia).
  reflexivity.
Qed.

Lemma epoch_plus_same_second us1 us2 t2 :
  us1 / 1000000 = us2 / 1000000 ->
  Datetime.epoch_plus us2 = Ok t2 ->
  exists t1,
    Datetime.epoch_plus us1 = Ok t1 /\
    Datetime.strftime t1 = Datetime.strftime t2.
Proof.
  intros Hsec. unfold Datetime.epoch_plus.
  change Datetime.us_per_day with 86400000000.
  change Datetime.us_per_second with 1000000.
  assert (Hdays : us1 / 86400000000 = us2 / 86400000000)
    by (rewrite !day_of_seconds; now rewrite Hsec).
  assert (Hrest : us1 mod 86400000000 / 1000000 = us2 mod 86400000000 / 1000000)
    by (rewrite !second_of_day; now rewrite Hsec).
  rewrite Hdays, Hrest.
  destruct (_ && _); [|discriminate].
  destruct (Datetime.ord_to_ymd _) as [[y m] d].
  intros [= <-]. eexists. split; reflexivity.
Qed.

Lemma epoch_plus_range n :
  0 <= n < DecoderRange.limit -> exists t, Datetime.epoch_plus n = Ok t.
Proof.
  intros Hn. unfold Datetime.epoch_plus, DecoderRange.limit in *.
  change Datetime.us_per_day with 86400000000.
  unfold Datetime.epoch_ordinal, Datetime.max_ordinal.
  assert (0 <= n / 86400000000) by (apply Z.div_pos; lia).
  assert (n / 86400000000 < 200000) by (apply Z.div_lt_upper_bound; lia).
  assert (Hlo : (1 <=? 584389 + n / 86400000000) = true)
    by (apply Z.leb_le; lia).
  assert (Hhi : (584389 + n / 86400000000 <=? 3652059) = true)
    by (apply Z.leb_le; lia).
  rewrite Hlo, Hhi. cbn [andb].
  destruct (Datetime.ord_to_ymd _) as [[y m] d]. eauto.
Qed.

Lemma timedelta_same_second n :
  0 <= n < DecoderRange.limit ->
  exists x us,
    Float.true_divide n 1000000 = Ok x /\
    Datetime.timedelta_seconds x = Ok us /\
    us / 1000000 = n / 1000000.
Proof.
  intros Hn. destruct (Z.eq_dec n 0) as [->|Hn0].
  - exists Float.zero, 0. repeat split.
  - destruct (DecoderRangeFacts.true_divide_range n ltac:(lia))
      as [m [sh [Hdiv [Hsh [Hm0 [Hm Hnorm]]]]]].
    destruct (DecoderRangeFacts.timedelta_range n m sh ltac:(lia) Hsh Hm0 Hm Hnorm)
      as [us [Htd Hus]].
    exists (Float.mk m (- sh)), us. auto.
Qed.

(** At 17179869184.999999 seconds after the epoch the quotient
    [17179869184999999 / 1_000_000] rounds to 17179869185.0, and the
    decoder shows the following second. *)
Lemma exact_for_every_integer_fails :
  PyInt.of_string "17179869184999999" = Some 17179869184999999 /\
  (exists t,
      Datetime.epoch_plus 17179869184999999 = Ok t /\
      Datetime.strftime t = "2145-05-30 01:53:04"%string) /\
  convert_webkit_timestamp (PStr "17179869184999999") =
    PStr "2145-05-30 01:53:05" /\
  ~ decoder_exact_everywhere.
Proof.
  split; [reflexivity|]. split; [eexists; split; vm_compute; reflexivity|].
  split; [vm_compute; reflexivity|].
  intros H.
  destruct (H "17179869184999999"%string 17179869184999999 eq_refl)
    as [t [Ht Hc]].
  vm_compute in Ht. injection Ht as <-.
  vm_compute in Hc. discriminate.
Qed.

(** ** Timestamps before the epoch *)

Module DecoderNegativeFacts.

Import DecoderRange.

(** Rounding to nearest with ties to even is odd: it commutes with the
    sign. *)
Lemma round_half_even_opp a b :
  0 < b -> Float.round_half_even (- a) b = - Float.round_half_even a b.
Proof.
  intros Hb. unfold Float.round_half_even.
  pose proof (Z.div_mod a b ltac:(lia)) as Hdm.
  pose proof (Z.mod_pos_bound a b Hb) as Hm.
  destruct (Z.eq_dec (a mod b) 0) as [H0|H0].
  - assert (Hq : (- a) / b = - (a / b)).
    { symmetry. apply (Z.div_unique (- a) b (- (a / b)) 0); lia. }
    assert (Hr : (- a) mod b = 0).
    { symmetry. apply (Z.mod_unique (- a) b (- (a / b)) 0); lia. }
    rewrite Hq, Hr, H0.
    destruct (2 * 0 <? b) eqn:E; [reflexivity|].
    apply Z.ltb_ge in E. lia.
  - assert (Hq : (- a) / b = - (a / b) - 1).
    { symmetry. apply (Z.div_unique (- a) b (- (a / b) - 1) (b - a mod b)); lia. }
    assert (Hr : (- a) mod b = b - a mod b).
    { symmetry. apply (Z.mod_unique (- a) b (- (a / b) - 1) (b - a mod b)); lia. }
    rewrite Hq, Hr.
    destruct (Z.ltb_spec (2 * (a mod b)) b) as [L1|L1];
      destruct (Z.ltb_spec b (2 * (a mod b))) as [L2|L2];
      destruct (Z.ltb_spec (2 * (b - a mod b)) b) as [L3|L3];
      destruct (Z.ltb_spec b (2 * (b - a mod b))) as [L4|L4];
      try lia.
    replace (- (a / b) - 1) with (- (a / b + 1)) by lia.
    rewrite Z.even_opp.
    rewrite (Z.add_1_r (a / b)), Z.even_succ, <- Z.negb_even.
    destruct (Z.even (a / b)); simpl; lia.
Qed.

Lemma round_half_even_zero b : 0 < b -> Float.round_half_even 0 b = 0.
Proof.
  intros Hb. pose proof (FloatFacts.round_half_even_bounds 0 b Hb). nia.
Qed.

Lemma true_divide_opp a d m e :
  0 < a ->
  Float.true_divide a d = Ok (Float.mk m e) ->
  Float.true_divide (- a) d = Ok (Float.mk (- m) e).
Proof.
  intros Ha. unfold Float.true_divide.
  destruct (Z.eqb_spec a 0); [lia|].
  destruct (Z.eqb_spec (- a) 0); [lia|].
  rewrite Z.abs_opp, (Z.sgn_pos a), (Z.sgn_neg (- a)) by lia.
  set (sh := 52 - Float.binade (Z.abs a) d).
  set (mm := if 0 <=? sh then _ else _).
  destruct (1024 <=? Z.log2 mm - sh); [intros H; discriminate H|].
  intros H.
  assert (Hm : m = 1 * mm) by congruence.
  assert (He : e = - sh) by congruence.
  rewrite Hm, He. f_equal. f_equal. lia.
Qed.

Lemma a_in_range a : 0 < a <= 17179869184000000 -> 0 < a < limit.
Proof. unfold limit. lia. Qed.

Section Quotient.
Variables (a m sh : Z).
Hypothesis Ha : 0 < a <= 17179869184000000.
Hypothesis Hsh : 18 <= sh.
Hypothesis Hm : - D <= 2 * (D * m - a * 2 ^ sh) <= D.
Hypothesis Hnorm : D * 2 ^ 52 <= a * 2 ^ sh < D * 2 ^ 53.

(** A timestamp on a whole second has an exact quotient. *)
Lemma whole_second_exact : a mod D = 0 -> m = a / D * 2 ^ sh.
Proof.
  intros Hr.
  pose proof (FloatFacts.pow2_pos sh ltac:(lia)) as HP.
  pose proof (Z.div_mod a D ltac:(unfold D; lia)) as Hs.
  rewrite Hr, Z.add_0_r in Hs.
  set (P := 2 ^ sh) in *. set (q := a / D) in *.
  assert (HaP : a * P = D * (q * P)) by (rewrite Hs at 1; ring).
  unfold D in *. lia.
Qed.

(** Off a whole second the shift is at least 19. *)
Lemma fraction_shift : 1 <= a mod D -> 19 <= sh.
Proof.
  intros Hr. destruct (Z.eq_dec sh 18) as [Hsh18|]; [|lia].
  exfalso. pose proof Hnorm as [Hlow _]. rewrite Hsh18 in Hlow.
  change (2 ^ 18) with 262144 in Hlow.
  change (2 ^ 52) with 4503599627370496 in Hlow.
  unfold D in Hlow, Hr.
  assert (Ha18 : a = 17179869184000000) by (clear - Ha Hlow; lia).
  rewrite Ha18 in Hr.
  change (17179869184000000 mod 1000000) with 0 in Hr. lia.
Qed.

Let P := 2 ^ sh.
Let f := m - a / D * P.

Lemma fraction_large :
  1 <= a mod D ->
  P < 2 * (D * f) /\ 524288 <= P /\ 2 * P - D <= 2 * (D * f).
Proof.
  intros Hr. pose proof (fraction_shift Hr) as H19.
  pose proof (DecoderRangeFacts.f_close a m sh Hm) as Hc.
  fold P in Hc. fold f in Hc.
  assert (HP : 2 ^ 19 <= P) by (apply Z.pow_le_mono_r; lia).
  change (2 ^ 19) with 524288 in HP.
  assert (HrP : 1 * P <= a mod D * P)
    by (apply Z.mul_le_mono_nonneg_r; lia).
  unfold D in *. split; [|split; [assumption | lia]].
  assert (Hf : 1 <= f) by nia.
  destruct (Z.le_gt_cases P 1000000); lia.
Qed.

(** Off a whole second the rounded microseconds are not zero. *)
Lemma micro_exact_positive :
  1 <= a mod D -> 1 <= Float.round_half_even (D * f) P.
Proof.
  intros Hr. destruct (fraction_large Hr) as [Hf [HP _]].
  pose proof (FloatFacts.round_half_even_bounds (D * f) P ltac:(lia)) as Hb.
  set (u := Float.round_half_even (D * f) P) in *.
  assert (HPu : 0 < P * u) by lia.
  apply (Z.mul_pos_cancel_l P u) in HPu; lia.
Qed.

Lemma micro_rounded_positive :
  1 <= a mod D ->
  2 ^ 53 <= D * f ->
  1 <= Float.round_half_even
         (Float.round_half_even (D * f) (2 ^ (Z.log2 (D * f) - 52)))
         (2 ^ (sh - (Z.log2 (D * f) - 52))).
Proof.
  intros Hr Hbig. destruct (fraction_large Hr) as [Hf [HP Hlow]].
  pose proof (DecoderRangeFacts.micro_rounded a m sh (a_in_range a Ha) Hsh Hm Hnorm)
    as Hs.
  fold P in Hs. fold f in Hs. specialize (Hs Hbig). cbv zeta in Hs.
  destruct Hs as [Hs _].
  pose proof (DecoderRangeFacts.f_range a m sh (a_in_range a Ha) Hsh Hm Hnorm) as Hfr.
  fold P in Hfr. fold f in Hfr.
  set (s := Z.log2 (D * f) - 52) in *.
  assert (Ha0 : 0 < D * f)
    by (change (2 ^ 53) with 9007199254740992 in Hbig; lia).
  assert (Hlsh : Z.log2 (D * f) < 20 + sh).
  { apply Z.log2_lt_pow2; [assumption|].
    rewrite FloatFacts.pow2_split by lia. fold P.
    change (2 ^ 20) with 1048576. unfold D in *. nia. }
  assert (HPs : P = 2 ^ s * 2 ^ (sh - s)).
  { unfold P. rewrite <- FloatFacts.pow2_split by lia. f_equal. lia. }
  assert (H33 : 2 ^ 33 <= 2 ^ (sh - s)).
  { apply Z.pow_le_mono_r; unfold s; lia. }
  change (2 ^ 33) with 8589934592 in H33.
  pose proof (FloatFacts.pow2_pos s ltac:(lia)) as Ps.
  pose proof (FloatFacts.pow2_pos (sh - s) ltac:(lia)) as Pt.
  pose proof (FloatFacts.round_half_even_bounds (D * f) (2 ^ s) Ps) as Hb1.
  set (m2 := Float.round_half_even (D * f) (2 ^ s)) in *.
  pose proof (FloatFacts.round_half_even_bounds m2 (2 ^ (sh - s)) Pt) as Hb2.
  set (u := Float.round_half_even m2 (2 ^ (sh - s))) in *.
  set (S := 2 ^ s) in *. set (T := 2 ^ (sh - s)) in *.
  assert (HuP : 2 * (S * m2) - P <= 2 * (P * u)).
  { assert (S * (- T) <= S * (2 * (T * u - m2)))
      by (apply Z.mul_le_mono_nonneg_l; lia).
    rewrite HPs. lia. }
  assert (HSP : 8589934592 * S <= P).
  { rewrite HPs, (Z.mul_comm 8589934592 S).
    apply Z.mul_le_mono_nonneg_l; lia. }
  assert (HPu : 0 < P * u) by (unfold D in *; lia).
  apply (Z.mul_pos_cancel_l P u) in HPu; lia.
Qed.

End Quotient.

(** [timedelta(seconds=x)] for the quotient of a timestamp before the
    epoch: the whole seconds are those of the timestamp, counted down. *)
Lemma timedelta_range_before_epoch a m sh :
  0 < a <= 17179869184000000 ->
  18 <= sh -> 0 <= m ->
  - D <= 2 * (D * m - a * 2 ^ sh) <= D ->
  D * 2 ^ 52 <= a * 2 ^ sh < D * 2 ^ 53 ->
  exists us,
    Datetime.timedelta_seconds (Float.mk (- m) (- sh)) = Ok us /\
    us / D = (- a) / D.
Proof.
  intros Ha Hsh Hm0 Hm Hnorm.
  pose proof (a_in_range a Ha) as Ha'.
  pose proof (DecoderRangeFacts.whole_seconds a m sh Ha' Hsh Hm Hnorm) as Hw.
  pose proof (DecoderRangeFacts.micro_exact a m sh Ha' Hsh Hm Hnorm) as He.
  pose proof (DecoderRangeFacts.micro_rounded a m sh Ha' Hsh Hm Hnorm) as Hr.
  pose proof (micro_exact_positive a m sh Ha Hsh Hm Hnorm) as Hep.
  pose proof (micro_rounded_positive a m sh Ha Hsh Hm Hnorm) as Hrp.
  pose proof (whole_second_exact a m sh Hsh Hm) as Hws.
  pose proof (FloatFacts.pow2_pos sh ltac:(lia)) as HP.
  pose proof (Z.div_mod a D ltac:(unfold D; lia)) as Hsplit.
  pose proof (Z.mod_pos_bound a D ltac:(unfold D; lia)) as Hrem.
  set (P := 2 ^ sh) in *. set (q := a / D) in *. set (r := a mod D) in *.
  assert (Hq : 0 <= q < 17179869185).
  { unfold q, D in *. split; [apply Z.div_pos; lia|].
    apply Z.div_lt_upper_bound; lia. }
  assert (Hmq : m / P = q).
  { symmetry. apply (Z.div_unique m P q (m - q * P)); lia. }
  assert (Hmr : m mod P = m - q * P).
  { symmetry. apply (Z.mod_unique m P q (m - q * P)); lia. }
  assert (Htrunc : Float.trunc (Float.mk (- m) (- sh)) = - q).
  { unfold Float.trunc. cbn [Float.de Float.dm].
    destruct (Z.leb_spec 0 (- sh)); [lia|].
    rewrite Z.opp_involutive. fold P.
    rewrite Z.quot_opp_l by lia.
    rewrite Z.quot_div_nonneg by lia. now rewrite Hmq. }
  assert (Hfrac : Float.frac (Float.mk (- m) (- sh)) =
                  Float.mk (- (m - q * P)) (- sh)).
  { unfold Float.frac. cbn [Float.de Float.dm].
    destruct (Z.leb_spec 0 (- sh)); [lia|].
    rewrite Z.opp_involutive. fold P.
    rewrite Z.rem_opp_l by lia.
    rewrite Z.rem_mod_nonneg by lia. now rewrite Hmr. }
  set (f := m - q * P) in *.
  assert (Hus : exists u,
             0 <= u < D /\ (r = 0 -> u = 0) /\ (1 <= r -> 1 <= u) /\
             (if Float.is_zero (Float.mk (- f) (- sh)) then - q * D
              else - q * D + Float.to_nearest
                               (Float.mul_int D (Float.mk (- f) (- sh)))) =
             - q * D - u).
  { unfold Float.is_zero. cbn [Float.dm].
    destruct (Z.eqb_spec (- f) 0) as [Hf0|Hf0].
    - exists 0. unfold D in *. repeat split; try lia.
      intros Hr1. specialize (Hep Hr1).
      replace f with 0 in Hep by lia.
      rewrite Z.mul_0_r, round_half_even_zero in Hep by assumption. lia.
    - assert (Hfz : r = 0 -> False).
      { intros Hr0. specialize (Hws Hr0). lia. }
      unfold Float.mul_int, Float.round53. cbn [Float.dm Float.de].
      assert (Hf : 0 < D * f) by (unfold D; lia).
      replace (D * - f) with (- (D * f)) by ring.
      rewrite Z.abs_opp, (Z.abs_eq (D * f)) by lia.
      destruct (Z.ltb_spec (D * f) (2 ^ 53)) as [Hsmall|Hbig].
      + exists (Float.round_half_even (D * f) P).
        split; [assumption|]. split; [intros; contradiction|].
        split; [assumption|].
        unfold Float.to_nearest. cbn [Float.dm Float.de].
        destruct (Z.leb_spec 0 (- sh)); [lia|].
        rewrite Z.opp_involutive. fold P.
        rewrite round_half_even_opp by assumption. lia.
      + specialize (Hr Hbig). cbv zeta in Hr. destruct Hr as [Hs Hu].
        set (s := Z.log2 (D * f) - 52) in *.
        exists (Float.round_half_even
                  (Float.round_half_even (D * f) (2 ^ s)) (2 ^ (sh - s))).
        split; [assumption|]. split; [intros; contradiction|].
        split; [intros Hr1; now apply Hrp|].
        unfold Float.to_nearest. cbn [Float.dm Float.de].
        destruct (Z.leb_spec 0 (- sh + s)); [lia|].
        rewrite (Z.sgn_neg (- (D * f))) by lia.
        replace (- (- sh + s)) with (sh - s) by lia.
        replace (-1 * Float.round_half_even (D * f) (2 ^ s))
          with (- Float.round_half_even (D * f) (2 ^ s)) by lia.
        rewrite round_half_even_opp
          by (apply FloatFacts.pow2_pos; lia).
        lia. }
  destruct Hus as [u [Hu [Hu0 [Hu1 Hus]]]].
  exists (- q * D - u). split.
  - unfold Datetime.timedelta_seconds.
    rewrite Htrunc, Hfrac.
    change Datetime.us_per_second with D. rewrite Hus.
    assert (Hdays : Z.abs ((- q * D - u) / Datetime.us_per_day)
                    <= Datetime.max_delta_days).
    { unfold Datetime.us_per_day, Datetime.us_per_second,
        Datetime.max_delta_days, D in *.
      assert (-200000 <= (- q * 1000000 - u) / (86400 * 1000000))
        by (apply Z.div_le_lower_bound; lia).
      assert ((- q * 1000000 - u) / (86400 * 1000000) <= 0)
        by (apply Z.div_le_upper_bound; lia).
      lia. }
    apply Z.leb_le in Hdays. now rewrite Hdays.
  - destruct (Z.eq_dec r 0) as [Hr0|Hr0].
    + rewrite (Hu0 Hr0).
      transitivity (- q); [|symmetry];
        [apply eq_sym, (Z.div_unique _ D (- q) 0)
        | apply eq_sym, (Z.div_unique _ D (- q) 0)]; unfold D in *; lia.
    + assert (1 <= u) by (apply Hu1; lia).
      transitivity (- q - 1); [|symmetry].
      * symmetry. apply (Z.div_unique _ D (- q - 1) (D - u)); unfold D in *; lia.
      * symmetry. apply (Z.div_unique _ D (- q - 1) (D - r)); unfold D in *; lia.
Qed.

End DecoderNegativeFacts.

Lemma epoch_plus_wide_range n :
  -17179869184000000 <= n < 17179869184999999 ->
  exists t, Datetime.epoch_plus n = Ok t.
Proof.
  intros Hn. unfold Datetime.epoch_plus.
  change Datetime.us_per_day with 86400000000.
  unfold Datetime.epoch_ordinal, Datetime.max_ordinal.
  assert (-200000 <= n / 86400000000) by (apply Z.div_le_lower_bound; lia).
  assert (n / 86400000000 < 200000) by (apply Z.div_lt_upper_bound; lia).
  assert (Hlo : (1 <=? 584389 + n / 86400000000) = true)
    by (apply Z.leb_le; lia).
  assert (Hhi : (584389 + n / 86400000000 <=? 3652059) = true)
    by (apply Z.leb_le; lia).
  rewrite Hlo, Hhi. cbn [andb].
  destruct (Datetime.ord_to_ymd _) as [[y m] d]. eauto.
Qed.

Lemma timedelta_same_second_before_epoch n :
  -17179869184000000 <= n < 0 ->
  exists x us,
    Float.true_divide n 1000000 = Ok x /\
    Datetime.timedelta_seconds x = Ok us /\
    us / 1000000 = n / 1000000.
Proof.
  intros Hn.
  assert (Ha : 0 < - n <= 17179869184000000) by lia.
  destruct (DecoderRangeFacts.true_divide_range (- n)
              (DecoderNegativeFacts.a_in_range (- n) Ha))
    as [m [sh [Hdiv [Hsh [Hm0 [Hm Hnorm]]]]]].
  destruct (DecoderNegativeFacts.timedelta_range_before_epoch (- n) m sh Ha Hsh Hm0 Hm Hnorm)
    as [us [Htd Hus]].
  apply DecoderNegativeFacts.true_divide_opp in Hdiv; [|lia].
  rewrite Z.opp_involutive in Hdiv, Hus.
  exists (Float.mk (- m) (- sh)), us. auto.
Qed.

Lemma timedelta_same_second_wide n :
  -17179869184000000 <= n < 17179869184999999 ->
  exists x us,
    Float.true_divide n 1000000 = Ok x /\
    Datetime.timedelta_seconds x = Ok us /\
    us / 1000000 = n / 1000000.
Proof.
  intros Hn. destruct (Z.lt_ge_cases n 0).
  - apply timedelta_same_second_before_epoch. lia.
  - apply timedelta_same_second. unfold DecoderRange.limit. lia.
Qed.

(** C5, amended.  For a text that [int] reads as [n] with
    [-17179869184000000 <= n < 17179869184999999], the decoder returns the
    date and time [n] microseconds after 1601-01-01 00:00:00 (before it
    when [n] is negative), cut down to the second and written as
    [YYYY-MM-DD HH:MM:SS]; for "0" that is "1601-01-01 00:00:00". *)
Theorem decode_exact_in_range (raw : string) (n : Z)
    (Hparse : PyInt.of_string raw = Some n)
    (Hrange : -17179869184000000 <= n < 17179869184999999) :
  (exists t,
      Datetime.epoch_plus n = Ok t /\
      convert_webkit_timestamp (PStr raw) = PStr (Datetime.strftime t)) /\
  convert_webkit_timestamp (PStr "0") = PStr "1601-01-01 00:00:00".
Proof.
  split; [|vm_compute; reflexivity].
  destruct (epoch_plus_wide_range n Hrange) as [t Ht].
  destruct (timedelta_same_second_wide n Hrange) as [x [us [Hdiv [Htd Hus]]]].
  destruct (epoch_plus_same_second us n t Hus Ht) as [t' [Ht' Hfmt]].
  exists t. split; [assumption|].
  unfold convert_webkit_timestamp, convert_body.
  cbn [PyInt.of_val]. rewrite Hparse. cbn [bind].
  rewrite Hdiv. cbn [bind]. rewrite Htd. cbn [bind]. rewrite Ht'. cbn [bind].
  now rewrite Hfmt.
Qed.

Lemma decode_exact_in_range_witness :
  (exists t,
      Datetime.epoch_plus 13253932800999999 = Ok t /\
      convert_webkit_timestamp (PStr " 13_253_932_800_999_999 ") =
        PStr (Datetime.strftime t)) /\
  convert_webkit_timestamp (PStr "0") = PStr "1601-01-01 00:00:00".
Proof.
  apply (decode_exact_in_range " 13_253_932_800_999_999 " 13253932800999999);
    [reflexivity | lia].
Defined.

(** The decoded text of that witness. *)
Example decoded_text_of_new_year_2021 :
  convert_webkit_timestamp (PStr " 13_253_932_800_999_999 ") =
  PStr "2021-01-01 00:00:00".
Proof. vm_compute. reflexivity. Qed.

(** Before the epoch the second is counted down: one microsecond before
    1601 is still in the last second of 1600. *)
Example decoded_text_before_epoch :
  convert_webkit_timestamp (PStr "-1") = PStr "1600-12-31 23:59:59" /\
  convert_webkit_timestamp (PStr "-17179869184000000") =
    PStr "1056-08-04 22:06:56".
Proof. split; vm_compute; reflexivity. Qed.

(** One microsecond below the lower bound the quotient rounds to
    -17179869184.0 and the decoder shows 22:06:56, where the exact time
    is 22:06:55.999999. *)
Example decoded_text_below_lower_bound :
  convert_webkit_timestamp (PStr "-17179869184000001") =
    PStr "1056-08-04 22:06:56" /\
  (exists t,
      Datetime.epoch_plus (-17179869184000001) = Ok t /\
      Datetime.strftime t = "1056-08-04 22:06:55"%string).
Proof.
  split; [vm_compute; reflexivity|].
  eexists. split; vm_compute; reflexivity.
Qed.

(** * Further properties of the code *)

(** ** The accumulator of [traverse_bookmarks] *)

Lemma for_each_appends cs :
  Forall appends_only cs ->
  forall acc path,
    for_each (fun child acc => traverse_bookmarks child acc path) cs acc =
    match for_each (fun child acc => traverse_bookmarks child acc path) cs [] with
    | Ok l => Ok (acc ++ l)%list
    | Raise e => Raise e
    end.
Proof.
  induction 1 as [|c cs Hc _ IH]; intros acc path; simpl.
  - now rewrite app_nil_r.
  - rewrite (Hc acc path).
    destruct (traverse_bookmarks c [] path) as [l1|e]; [|reflexivity].
    rewrite (IH (acc ++ l1)%list path), (IH l1 path).
    destruct (for_each _ cs []) as [l2|e]; [|reflexivity].
    now rewrite app_assoc.
Qed.

Lemma appends_only_all node :
  appends_only node /\
  (forall cs, node = PList cs -> Forall appends_only cs).
Proof.
  induction node as [| | | |l IH|d IH] using pyval_nested_ind;
    (split; [intros acc path | intros cs [=]]); try reflexivity.
  - subst. eapply Forall_impl; [|exact IH]. now intros a [Ha _].
  - simpl.
    destruct (eq_str (Dict.get d "type" PNone) "folder").
    + rewrite !DictFacts.case_lookup.
      destruct (Dict.lookup d "children") as [children|] eqn:E;
        [|now rewrite app_nil_r].
      destruct children as [| | |s|cs|cd]; try reflexivity.
      * destruct (String.eqb s ""); [now rewrite app_nil_r | reflexivity].
      * apply DictFacts.lookup_In in E.
        rewrite Forall_forall in IH. specialize (IH _ E) as [_ IH].
        now apply for_each_appends, IH.
      * destruct cd; [now rewrite app_nil_r | reflexivity].
    + destruct (eq_str (Dict.get d "type" PNone) "url");
        [reflexivity | now rewrite app_nil_r].
Qed.

(** X1. [traverse_bookmarks] only appends: what it adds to the list, and
    whether it raises, does not depend on what the list already holds. *)
Theorem traverse_appends_only (node : pyval) (acc : list dict) (path : pyval) :
  traverse_bookmarks node acc path =
  match traverse_bookmarks node [] path with
  | Ok l => Ok (acc ++ l)%list
  | Raise e => Raise e
  end.
Proof. apply appends_only_all. Qed.

(** ** When [traverse_bookmarks] raises *)

Lemma for_each_outcome cs :
  Forall traverse_outcome cs ->
  forall acc path,
    if forallb traversable cs then
      for_each (fun child acc => traverse_bookmarks child acc path) cs acc =
      Ok (acc ++ flat_map (fun child => records_of child path) cs)%list
    else
      exists e,
        for_each (fun child acc => traverse_bookmarks child acc path) cs acc =
        Raise e /\ (e = AttributeError \/ e = TypeError).
Proof.
  induction 1 as [|c cs Hc _ IH]; intros acc path; simpl.
  - now rewrite app_nil_r.
  - specialize (Hc acc path).
    destruct (traversable c); simpl.
    + rewrite Hc.
      specialize (IH (acc ++ records_of c path)%list path).
      destruct (forallb traversable cs); [|exact IH].
      now rewrite IH, app_assoc.
    + destruct Hc as [e [-> He]]. eauto.
Qed.

Lemma traverse_outcome_all node :
  traverse_outcome node /\
  (forall cs, node = PList cs -> Forall traverse_outcome cs).
Proof.
  induction node as [| | | |l IH|d IH] using pyval_nested_ind;
    (split; [intros acc path | intros cs [=]]);
    try (simpl; eauto; fail).
  - subst. eapply Forall_impl; [|exact IH]. now intros a [Ha _].
  - simpl.
    destruct (eq_str (Dict.get d "type" PNone) "folder").
    + rewrite !DictFacts.case_lookup.
      destruct (Dict.lookup d "children") as [children|] eqn:E;
        [|now rewrite app_nil_r].
      destruct children as [| | |s|cs|cd]; eauto.
      * destruct (String.eqb s ""); [now rewrite app_nil_r | eauto].
      * apply DictFacts.lookup_In in E.
        rewrite Forall_forall in IH. specialize (IH _ E) as [_ IH].
        now apply for_each_outcome, IH.
      * destruct cd; [now rewrite app_nil_r | eauto].
    + destruct (eq_str (Dict.get d "type" PNone) "url");
        [reflexivity | now rewrite app_nil_r].
Qed.

(** X2. [traverse_bookmarks] succeeds exactly on the nodes that are
    objects down to the leaves it visits, with [children] under a folder
    absent, a list, or an empty string or object; it then appends the
    records of the subtree in depth-first order.  On every other node it
    raises [AttributeError] or [TypeError]. *)
Theorem traverse_succeeds_or_raises (node : pyval) (acc : list dict)
    (path : pyval) :
  if traversable node then
    traverse_bookmarks node acc path = Ok (acc ++ records_of node path)%list
  else
    exists e, traverse_bookmarks node acc path = Raise e /\
              (e = AttributeError \/ e = TypeError).
Proof. apply traverse_outcome_all. Qed.

Lemma traverse_ok_records node acc path acc' :
  traverse_bookmarks node acc path = Ok acc' ->
  acc' = (acc ++ records_of node path)%list.
Proof.
  intros H. pose proof (proj1 (traverse_outcome_all node) acc path) as Ho.
  destruct (traversable node).
  - congruence.
  - destruct Ho as [e [He _]]. congruence.
Qed.

(** ** The shape of the records *)

Lemma copy_item_keys bookmark kv :
  exists extra,
    Dict.keys (copy_item bookmark kv) = (Dict.keys bookmark ++ extra)%list /\
    ~ In "children"%string extra.
Proof.
  unfold copy_item.
  destruct (negb (Dict.mem bookmark (fst kv))) eqn:Em; simpl;
    [|exists []; rewrite app_nil_r; auto].
  destruct (String.eqb_spec (fst kv) "children") as [Hc|Hc]; simpl;
    [exists []; rewrite app_nil_r; auto|].
  exists [fst kv]. split.
  - apply DictFacts.keys_set_absent. now apply negb_true_iff in Em.
  - simpl. intuition congruence.
Qed.

Lemma copy_items_keys d bookmark :
  exists extra,
    Dict.keys (fold_left copy_item d bookmark) =
      (Dict.keys bookmark ++ extra)%list /\
    ~ In "children"%string extra.
Proof.
  revert bookmark. induction d as [|kv d IH]; intros bookmark; simpl.
  - exists []. rewrite app_nil_r. auto.
  - destruct (copy_item_keys bookmark kv) as [e1 [H1 N1]].
    destruct (IH (copy_item bookmark kv)) as [e2 [H2 N2]].
    exists (e1 ++ e2)%list. split.
    + now rewrite H2, H1, app_assoc.
    + rewrite in_app_iff. tauto.
Qed.

Lemma make_bookmark_shape d path : record_shape (make_bookmark d path).
Proof.
  unfold record_shape, make_bookmark.
  destruct (copy_items_keys d (bookmark_base d path)) as [extra [Hk Hn]].
  rewrite Hk. repeat split.
  - apply copy_items_wf, bookmark_base_wf.
  - rewrite in_app_iff. intros [H|H]; [|contradiction].
    simpl in H. intuition discriminate.
Qed.

Lemma path_extends_trans p name q :
  path_extends (PStr (py_str p ++ "/" ++ name)) q -> path_extends p q.
Proof.
  intros [->|[rest ->]]; right.
  - now exists name.
  - exists (name ++ "/" ++ rest)%string. cbn [py_str].
    now rewrite !append_assoc.
Qed.

Lemma records_of_origin_all node :
  origin_spec node /\ (forall cs, node = PList cs -> Forall origin_spec cs).
Proof.
  induction node as [| | | |l IH|d IH] using pyval_nested_ind;
    (split; [intros path r Hr | intros cs [=]]); try contradiction.
  - subst. eapply Forall_impl; [|exact IH]. now intros a [Ha _].
  - simpl in Hr.
    destruct (eq_str (Dict.get d "type" PNone) "folder") eqn:Ef.
    + rewrite DictFacts.case_lookup in Hr.
      destruct (Dict.lookup d "children") as [children|] eqn:E;
        [|contradiction].
      destruct children as [| | | |cs|]; try contradiction.
      apply DictFacts.lookup_In in E.
      rewrite Forall_forall in IH. specialize (IH _ E) as [_ IH].
      specialize (IH cs eq_refl). rewrite Forall_forall in IH.
      apply in_flat_map in Hr as [c [Hc Hr]].
      destruct (IH c Hc _ _ Hr) as [d' [q [-> [Ht Hq]]]].
      exists d', q. repeat split; [assumption|].
      intros Hp. unfold folder_path in Hq. rewrite Hp in Hq.
      apply (path_extends_trans path
               (py_str (Dict.get d "name" (PStr "Unnamed Folder")))).
      apply Hq, truthy_path_str.
    + destruct (eq_str (Dict.get d "type" PNone) "url") eqn:Eu;
        [|contradiction].
      destruct Hr as [<-|[]]. exists d, path. repeat split.
      * now apply eq_str_lookup.
      * intros _. now left.
Qed.

Lemma records_of_origin node path r :
  In r (records_of node path) ->
  exists d q,
    r = make_bookmark d q /\
    Dict.lookup d "type" = Some (PStr "url") /\
    (truthy path = true -> path_extends path q).
Proof. apply records_of_origin_all. Qed.

(** X3. Every record that [traverse_bookmarks] adds has the keys [name],
    [url], [date_added], [date_modified] and [path] first and in this
    order, has no key twice and has no [children] key. *)
Theorem traverse_keeps_record_shape (node : pyval) (acc acc' : list dict)
    (path : pyval)
    (Hacc : Forall record_shape acc)
    (Hrun : traverse_bookmarks node acc path = Ok acc') :
  Forall record_shape acc'.
Proof.
  apply traverse_ok_records in Hrun. subst acc'.
  apply Forall_app. split; [assumption|].
  apply Forall_forall. intros r Hr.
  destruct (records_of_origin _ _ _ Hr) as [d [q [-> _]]].
  apply make_bookmark_shape.
Qed.

Lemma traverse_keeps_record_shape_witness :
  Forall record_shape
    [make_bookmark leaf_url (PStr "Bar/Bar/Work");
     make_bookmark tagged_url (PStr "Bar/Bar")].
Proof.
  apply (traverse_keeps_record_shape
           (folder "Bar" [folder "Work" [PDict leaf_url]; PDict tagged_url])
           [] _ (PStr "Bar")); [constructor | reflexivity].
Defined.

(** X4. Under a path that is not empty, every record that
    [traverse_bookmarks] adds has that path, or that path followed by a
    slash and more: a subtree never writes outside the path it is given. *)
Theorem traverse_paths_extend (node : pyval) (acc acc' : list dict)
    (path : pyval) (r : dict)
    (Hpath : truthy path = true)
    (Hrun : traverse_bookmarks node acc path = Ok acc')
    (Hr : In r acc') :
  In r acc \/
  exists q, Dict.lookup r "path" = Some q /\ path_extends path q.
Proof.
  apply traverse_ok_records in Hrun. subst acc'.
  apply in_app_or in Hr as [Hr|Hr]; [now left | right].
  destruct (records_of_origin _ _ _ Hr) as [d [q [-> [_ Hq]]]].
  exists q. split; [apply make_bookmark_path | now apply Hq].
Qed.

Lemma traverse_paths_extend_witness :
  In (make_bookmark leaf_url (PStr "Bar/Bar/Work")) [] \/
  exists q,
    Dict.lookup (make_bookmark leaf_url (PStr "Bar/Bar/Work")) "path" = Some q /\
    path_extends (PStr "Bar") q.
Proof.
  apply (traverse_paths_extend
           (folder "Bar" [folder "Work" [PDict leaf_url]; PDict tagged_url])
           [] [make_bookmark leaf_url (PStr "Bar/Bar/Work");
               make_bookmark tagged_url (PStr "Bar/Bar")]
           (PStr "Bar"));
    [reflexivity | reflexivity | now left].
Defined.

(** ** What [get_all_bookmarks] does to the world *)

Lemma root_lines_diagnostics rd key :
  In key roots -> Forall no_diagnostic_but_roots (root_lines rd key).
Proof.
  intros Hk. unfold root_lines.
  destruct (truthy _); constructor; [|constructor].
  right. now exists key.
Qed.

Lemma collect_root_outcome rd key acc w :
  exists o,
    collect_root rd key acc w = (printed w (root_lines rd key), o) /\
    (o = Done (acc ++ root_records rd key)%list \/
     o = Stop (Uncaught AttributeError) \/ o = Stop (Uncaught TypeError)).
Proof.
  unfold collect_root, root_records, root_lines.
  destruct (Dict.get rd key (PDict [])) as [| |z|s|l|r] eqn:E;
    destruct (truthy _) eqn:T; cbn [negb];
    try (eexists; split;
         [unfold IO.bind, IO.print, IO.ret, IO.lift, printed; simpl;
          rewrite ?app_nil_r; try destruct w; reflexivity
         | rewrite ?app_nil_r; auto]; fail).
  rewrite printed_nil. unfold IO.lift.
  pose proof (proj1 (traverse_outcome_all (PDict r)) acc
                (Dict.get r "name" (PStr key))) as Ho.
  destruct (traversable (PDict r)).
  - rewrite Ho. eauto.
  - destruct Ho as [e [-> [-> | ->]]]; eauto.
Qed.

Lemma collect_roots_outcome rd keys :
  (forall k, In k keys -> In k roots) ->
  forall acc w,
  exists lines o,
    IO.for_each (collect_root rd) keys acc w = (printed w lines, o) /\
    Forall no_diagnostic_but_roots lines /\
    (o = Done (acc ++ flat_map (root_records rd) keys)%list \/
     o = Stop (Uncaught AttributeError) \/ o = Stop (Uncaught TypeError)).
Proof.
  induction keys as [|k keys IH]; intros Hk acc w; simpl.
  - exists [], (Done acc). rewrite printed_nil, app_nil_r.
    repeat split; auto.
  - unfold IO.bind.
    destruct (collect_root_outcome rd k acc w) as [o [-> Ho]].
    pose proof (root_lines_diagnostics rd k (Hk k (or_introl eq_refl))) as Hd.
    destruct Ho as [-> | [-> | ->]];
      try (exists (root_lines rd k); eexists; repeat split; eauto; fail).
    destruct (IH (fun k' H => Hk k' (or_intror H))
                (acc ++ root_records rd k)%list
                (printed w (root_lines rd k))) as [lines [o [-> [Hl Ho]]]].
    exists (root_lines rd k ++ lines)%list, o. split; [|split].
    + unfold printed. simpl. now rewrite app_assoc.
    + apply Forall_app. auto.
    + now rewrite app_assoc.
Qed.

Lemma get_all_outcome (data : pyval) (w : world) :
  exists lines o,
    get_all_bookmarks data w = (printed w lines, o) /\
    files (printed w lines) = files w /\
    Forall no_diagnostic_but_roots lines /\
    collector_outcome data o.
Proof.
  destruct data as [| | | | |top];
    try (exists [], (Stop (Uncaught AttributeError));
         rewrite printed_nil; repeat split; simpl; auto; fail).
  unfold get_all_bookmarks, collector_outcome, document_records.
  destruct (Dict.get top "roots" (PDict [])) as [| |z|s|l|rd] eqn:E;
    destruct (truthy _) eqn:T; cbn [negb];
    try (exists [no_roots_msg], (Done []); repeat split;
         [repeat constructor; now left]; fail);
    try (exists [], (Stop (Uncaught AttributeError));
         rewrite printed_nil; repeat split; auto; fail).
  - destruct (collect_roots_outcome rd roots (fun k H => H) [] w)
      as [lines [o [-> [Hl Ho]]]].
    exists lines, o. repeat split; [assumption|].
    destruct Ho as [-> | [-> | ->]]; auto.
    simpl. now rewrite app_nil_r.
  - destruct rd; [|discriminate].
    exists [no_roots_msg], (Done []). repeat split.
    repeat constructor.
Qed.

(** X5. Whatever the parsed document is, [get_all_bookmarks] writes no
    file and never exits: it adds to the output only the diagnostic for
    missing [roots] or for a missing root, and it ends with the records of
    the document or with an [AttributeError] or [TypeError] of a value
    that is not what the traversal expects. *)
Theorem collector_effects (data : pyval) (w : world) :
  exists lines o,
    get_all_bookmarks data w = (printed w lines, o) /\
    files (printed w lines) = files w /\
    Forall no_diagnostic_but_roots lines /\
    collector_outcome data o.
Proof. apply get_all_outcome. Qed.

(** ** Roots that the collector does not know *)

Lemma collect_root_same_lookup rd rd' key acc w :
  Dict.lookup rd key = Dict.lookup rd' key ->
  collect_root rd key acc w = collect_root rd' key acc w.
Proof. intros H. unfold collect_root, Dict.get. now rewrite H. Qed.

(** X6. [get_all_bookmarks] reads [roots] through the keys
    [bookmark_bar], [other] and [synced] only: two documents whose
    [roots] are not empty and agree on these three keys give the same
    result, whatever else [roots] or the document hold. *)
Theorem collector_reads_three_roots (top top' rd rd' : dict) (w : world)
    (Htop : Dict.lookup top "roots" = Some (PDict rd))
    (Htop' : Dict.lookup top' "roots" = Some (PDict rd'))
    (Hrd : rd <> []) (Hrd' : rd' <> [])
    (Hsame : forall k, In k roots -> Dict.lookup rd k = Dict.lookup rd' k) :
  get_all_bookmarks (PDict top) w = get_all_bookmarks (PDict top') w.
Proof.
  unfold get_all_bookmarks, Dict.get. rewrite Htop, Htop'.
  destruct rd as [|kv rd]; [contradiction|].
  destruct rd' as [|kv' rd']; [contradiction|].
  cbn [truthy negb roots IO.for_each]. unfold IO.bind.
  rewrite (collect_root_same_lookup _ (kv' :: rd') "bookmark_bar")
    by (apply Hsame; simpl; auto).
  destruct (collect_root (kv' :: rd') "bookmark_bar" [] w) as [w1 [a1|s]];
    [|reflexivity].
  rewrite (collect_root_same_lookup _ (kv' :: rd') "other")
    by (apply Hsame; simpl; auto).
  destruct (collect_root (kv' :: rd') "other" a1 w1) as [w2 [a2|s]];
    [|reflexivity].
  rewrite (collect_root_same_lookup _ (kv' :: rd') "synced")
    by (apply Hsame; simpl; auto).
  reflexivity.
Qed.

Lemma collector_reads_three_roots_witness :
  get_all_bookmarks
    (PDict [("roots",
             PDict [("trash", folder "Trash" [PDict tagged_url]);
                    ("bookmark_bar", folder "Bar" [PDict leaf_url])])]%string)
    init_world =
  get_all_bookmarks
    (PDict [("version", PInt 1);
            ("roots", PDict [("bookmark_bar", folder "Bar" [PDict leaf_url])])]%string)
    init_world.
Proof.
  apply (collector_reads_three_roots _ _
           [("trash", folder "Trash" [PDict tagged_url]);
            ("bookmark_bar", folder "Bar" [PDict leaf_url])]%string
           [("bookmark_bar", folder "Bar" [PDict leaf_url])]%string);
    try reflexivity; try discriminate.
  intros k [<- | [<- | [<- | []]]]; reflexivity.
Defined.

(** ** The header and the rows of the export *)

Lemma sorted_head_lt a l x :
  StronglySorted str_lt (a :: l) -> In x l -> str_lt a x.
Proof.
  intros H Hx. apply StronglySorted_inv in H as [_ H].
  rewrite Forall_forall in H. now apply H.
Qed.

Lemma sorted_unique l1 :
  forall l2,
    StronglySorted str_lt l1 -> StronglySorted str_lt l2 ->
    (forall x, In x l1 <-> In x l2) -> l1 = l2.
Proof.
  induction l1 as [|a l1 IH]; intros [|b l2] H1 H2 Hsame.
  - reflexivity.
  - exfalso. apply (proj2 (Hsame b)). now left.
  - exfalso. apply (proj1 (Hsame a)). now left.
  - assert (Hab : a = b).
    { destruct (proj1 (Hsame a) (or_introl eq_refl)) as [Hb|Hb]; [auto|].
      destruct (proj2 (Hsame b) (or_introl eq_refl)) as [Ha|Ha]; [auto|].
      exfalso. apply (StringOrder.lt_irrefl a).
      apply (StringOrder.lt_trans a b a).
      - now apply (sorted_head_lt a l1).
      - now apply (sorted_head_lt b l2). }
    subst b. f_equal.
    apply IH; [now apply StronglySorted_inv in H1
              | now apply StronglySorted_inv in H2 |].
    intros x. split; intros Hx.
    + destruct (proj1 (Hsame x) (or_intror Hx)) as [<-|]; [|assumption].
      exfalso. apply (StringOrder.lt_irrefl a).
      now apply (sorted_head_lt a l1).
    + destruct (proj2 (Hsame x) (or_intror Hx)) as [<-|]; [|assumption].
      exfalso. apply (StringOrder.lt_irrefl a).
      now apply (sorted_head_lt a l2).
Qed.

Lemma headers_sorted bms :
  StronglySorted str_lt (Headers.sorted (Headers.collect bms)).
Proof. apply HeadersFacts.sorted_sorted, HeadersFacts.collect_NoDup. Qed.

Lemma headers_In bms k :
  In k (Headers.sorted (Headers.collect bms)) <->
  exists bm, In bm bms /\ In k (Dict.keys bm).
Proof. rewrite HeadersFacts.sorted_In. apply HeadersFacts.collect_In. Qed.

Lemma headers_same_key_set bookmarks bookmarks' :
  (forall k,
      (exists bm, In bm bookmarks /\ In k (Dict.keys bm)) <->
      (exists bm, In bm bookmarks' /\ In k (Dict.keys bm))) ->
  Headers.sorted (Headers.collect bookmarks) =
  Headers.sorted (Headers.collect bookmarks').
Proof.
  intros Hkeys. apply sorted_unique; try apply headers_sorted.
  intros k. now rewrite !headers_In.
Qed.

(** X7. The header that [export_to_csv] computes depends on the set of
    keys of the records only: not on the order of the records, nor on the
    order of the keys in a record, nor on how often a key occurs. *)
Theorem header_depends_on_key_set (bookmarks bookmarks' : list dict)
    (Hkeys : forall k,
        (exists bm, In bm bookmarks /\ In k (Dict.keys bm)) <->
        (exists bm, In bm bookmarks' /\ In k (Dict.keys bm))) :
  Headers.sorted (Headers.collect bookmarks) =
  Headers.sorted (Headers.collect bookmarks').
Proof.
  assert (Hsorted : forall bms,
             StronglySorted str_lt (Headers.sorted (Headers.collect bms))).
  { intros bms.
    apply HeadersFacts.sorted_sorted, HeadersFacts.collect_NoDup. }
  apply sorted_unique; try apply Hsorted.
  intros k.
  rewrite !HeadersFacts.sorted_In, !HeadersFacts.collect_In.
  apply Hkeys.
Qed.

Lemma header_depends_on_key_set_witness :
  Headers.sorted (Headers.collect ab_ac_records) =
  Headers.sorted
    (Headers.collect
       [ [("c", PInt 4); ("a", PInt 3)]; [("b", PInt 2); ("a", PInt 1)];
         [("a", PInt 0)] ]%string).
Proof.
  apply (header_depends_on_key_set ab_ac_records).
  intros k. unfold ab_ac_records.
  split; intros [bm [Hbm Hk]]; simpl in Hbm;
    repeat (destruct Hbm as [Hbm | Hbm]); try contradiction; subst bm;
    simpl in Hk; repeat (destruct Hk as [Hk | Hk]); try contradiction;
    subst k;
    solve [ eexists; split; [left; reflexivity | simpl; auto]
          | eexists; split; [right; left; reflexivity | simpl; auto]
          | eexists; split; [right; right; left; reflexivity | simpl; auto] ].
Defined.

Lemma combine_map_In {A B} (f : A -> B) l x y :
  In (x, y) (combine l (map f l)) <-> In x l /\ y = f x.
Proof.
  induction l as [|a l IH]; simpl; [tauto|].
  rewrite IH. split.
  - intros [[= -> ->] | [H1 H2]]; auto.
  - intros [[-> | H1] ->]; auto.
Qed.

(** X8. In the row that [export_to_csv] writes for a record, every key of
    the record has its column, and the field in that column is the value
    of the key and no other; the row has as many fields as the header. *)
Theorem row_holds_the_record (bookmarks : list dict) (bm : dict)
    (k : string) (v : pyval)
    (Hbm : In bm bookmarks)
    (Hk : Dict.lookup bm k = Some v) :
  let headers := Headers.sorted (Headers.collect bookmarks) in
  In (k, v) (combine headers (row_of headers bm)) /\
  (forall v', In (k, v') (combine headers (row_of headers bm)) -> v' = v) /\
  List.length (row_of headers bm) = List.length headers.
Proof.
  intros headers. unfold row_of. split; [|split].
  - apply combine_map_In. split.
    + apply headers_In. exists bm. split; [assumption|].
      apply DictFacts.lookup_In in Hk.
      apply (in_map fst) in Hk. exact Hk.
    + now rewrite (DictFacts.get_lookup _ _ _ _ Hk).
  - intros v' Hv'. apply combine_map_In in Hv' as [_ ->].
    now apply DictFacts.get_lookup.
  - apply length_map.
Qed.

Lemma row_holds_the_record_witness :
  let headers := Headers.sorted (Headers.collect ab_ac_records) in
  In ("c"%string, PInt 4)
     (combine headers (row_of headers [("a", PInt 3); ("c", PInt 4)]%string)) /\
  (forall v',
      In ("c"%string, v')
         (combine headers (row_of headers [("a", PInt 3); ("c", PInt 4)]%string)) ->
      v' = PInt 4) /\
  List.length (row_of headers [("a", PInt 3); ("c", PInt 4)]%string) =
    List.length headers.
Proof.
  apply (row_holds_the_record ab_ac_records
           [("a", PInt 3); ("c", PInt 4)]%string "c" (PInt 4));
    [right; left; reflexivity | reflexivity].
Defined.

Lemma record_shape_required r k :
  record_shape r -> In k required_keys -> In k (Dict.keys r).
Proof.
  intros [Hf _] Hk. rewrite <- Hf in Hk.
  rewrite <- (firstn_skipn 5 (Dict.keys r)). apply in_or_app. now left.
Qed.

(** X9. For records of the shape [traverse_bookmarks] builds, the header
    of the export always has the columns [name], [url], [date_added],
    [date_modified] and [path], and never a column [children]. *)
Theorem header_of_shaped_records (bookmarks : list dict) (k : string)
    (Hne : bookmarks <> [])
    (Hshape : Forall record_shape bookmarks)
    (Hk : In k required_keys) :
  In k (Headers.sorted (Headers.collect bookmarks)) /\
  ~ In "children"%string (Headers.sorted (Headers.collect bookmarks)).
Proof.
  rewrite Forall_forall in Hshape. split.
  - destruct bookmarks as [|bm bms]; [contradiction|].
    apply headers_In. exists bm. split; [now left|].
    apply record_shape_required; [apply Hshape; now left | assumption].
  - intros Hc. apply headers_In in Hc as [bm [Hbm Hc]].
    now apply (proj2 (proj2 (Hshape bm Hbm))).
Qed.

Lemma header_of_shaped_records_witness :
  In "path"%string (Headers.sorted (Headers.collect dated_records)) /\
  ~ In "children"%string (Headers.sorted (Headers.collect dated_records)).
Proof.
  apply (header_of_shaped_records dated_records "path").
  - discriminate.
  - unfold dated_records.
    constructor; [apply make_bookmark_shape|].
    constructor; [apply make_bookmark_shape | constructor].
  - simpl. auto 6.
Defined.

(** ** Decoding twice *)

Lemma digit_char_decimal n : In (Datetime.digit_char n) decimal_digits.
Proof.
  unfold Datetime.digit_char.
  pose proof (Z.mod_pos_bound n 10 ltac:(lia)) as Hm.
  assert (H : n mod 10 = 0 \/ n mod 10 = 1 \/ n mod 10 = 2 \/ n mod 10 = 3 \/
              n mod 10 = 4 \/ n mod 10 = 5 \/ n mod 10 = 6 \/ n mod 10 = 7 \/
              n mod 10 = 8 \/ n mod 10 = 9) by lia.
  unfold decimal_digits.
  repeat (destruct H as [H | H]); rewrite H; simpl; auto 12.
Qed.

Lemma decimal_digit_value c :
  In c decimal_digits -> exists v, PyInt.digit c = Some v.
Proof.
  unfold decimal_digits. simpl.
  intros H. repeat (destruct H as [H | H]); try contradiction; subst c;
    eexists; reflexivity.
Qed.

Lemma of_string_decimal c rest :
  In c decimal_digits ->
  PyInt.of_string (String c rest) = PyInt.unsigned (String c rest).
Proof.
  unfold decimal_digits. simpl.
  intros H. repeat (destruct H as [H | H]); try contradiction; subst c;
    reflexivity.
Qed.

Lemma scan_decimal c s prev acc count :
  In c decimal_digits ->
  exists v,
    PyInt.scan (String c s) prev acc count =
    PyInt.scan s false (10 * acc + v) (S count).
Proof.
  intros H. destruct (decimal_digit_value c H) as [v Hv].
  exists v. cbn [PyInt.scan]. now rewrite Hv.
Qed.

Lemma strftime_shape t :
  exists d1 d2 d3 d4 rest,
    Datetime.strftime t =
    String d1 (String d2 (String d3 (String d4 (String "-" rest)))) /\
    In d1 decimal_digits /\ In d2 decimal_digits /\
    In d3 decimal_digits /\ In d4 decimal_digits.
Proof.
  unfold Datetime.strftime. cbn [Datetime.pad String.append].
  do 5 eexists. split; [reflexivity|].
  repeat split; apply digit_char_decimal.
Qed.

Lemma of_string_strftime t : PyInt.of_string (Datetime.strftime t) = None.
Proof.
  destruct (strftime_shape t) as [d1 [d2 [d3 [d4 [rest [-> [H1 [H2 [H3 H4]]]]]]]]].
  rewrite (of_string_decimal d1 _ H1). unfold PyInt.unsigned.
  destruct (scan_decimal d1 (String d2 (String d3 (String d4 (String "-" rest))))
              true 0 0%nat H1) as [v1 ->].
  destruct (scan_decimal d2 (String d3 (String d4 (String "-" rest)))
              false (10 * 0 + v1) 1%nat H2) as [v2 ->].
  destruct (scan_decimal d3 (String d4 (String "-" rest))
              false (10 * (10 * 0 + v1) + v2) 2%nat H3) as [v3 ->].
  destruct (scan_decimal d4 (String "-" rest)
              false (10 * (10 * (10 * 0 + v1) + v2) + v3) 3%nat H4) as [v4 ->].
  reflexivity.
Qed.

Lemma convert_body_text v s :
  convert_body v = Ok s -> exists t, s = Datetime.strftime t.
Proof.
  unfold convert_body.
  destruct (PyInt.of_val v) as [n|]; [|discriminate]. cbn [bind].
  destruct (Float.true_divide n 1000000) as [x|]; [|discriminate]. cbn [bind].
  destruct (Datetime.timedelta_seconds x) as [us|]; [|discriminate]. cbn [bind].
  destruct (Datetime.epoch_plus us) as [t|]; [|discriminate]. cbn [bind].
  intros [= <-]. now exists t.
Qed.

Lemma convert_of_text t :
  convert_webkit_timestamp (PStr (Datetime.strftime t)) =
  PStr (Datetime.strftime t).
Proof.
  apply (convert_failure _ ValueError), convert_unparsed, of_string_strftime.
Qed.

Lemma convert_twice (v : pyval) :
  convert_webkit_timestamp (convert_webkit_timestamp v) =
  convert_webkit_timestamp v.
Proof.
  unfold convert_webkit_timestamp at 2 3.
  destruct (convert_body v) as [s|e] eqn:E.
  - destruct (convert_body_text v s E) as [t ->]. apply convert_of_text.
  - now apply (convert_failure v e).
Qed.

(** X10. Decoding is idempotent: a text that the decoder has produced is
    not read as a timestamp again, and a value it could not convert comes
    back unchanged, so decoding a decoded value changes nothing. *)
Theorem convert_idempotent (v : pyval) :
  convert_webkit_timestamp (convert_webkit_timestamp v) =
  convert_webkit_timestamp v.
Proof.
  unfold convert_webkit_timestamp at 2 3.
  destruct (convert_body v) as [s|e] eqn:E.
  - destruct (convert_body_text v s E) as [t ->].
    apply (convert_failure _ ValueError), convert_unparsed, of_string_strftime.
  - now apply (convert_failure v e).
Qed.

Lemma get_set_eq d k v default : Dict.get (Dict.set d k v) k default = v.
Proof. unfold Dict.get. now rewrite DictFacts.lookup_set_eq. Qed.

Lemma get_set_ne d k v k' default :
  k <> k' -> Dict.get (Dict.set d k v) k' default = Dict.get d k' default.
Proof. intros H. unfold Dict.get. now rewrite DictFacts.lookup_set_ne. Qed.

Lemma set_same d k v : Dict.lookup d k = Some v -> Dict.set d k v = d.
Proof.
  induction d as [|[k' v'] d IH]; simpl; [discriminate|].
  destruct (String.eqb_spec k' k) as [->|Hne].
  - now intros [= ->].
  - intros H. now rewrite IH.
Qed.

Lemma decode_bookmark_idempotent bm :
  decode_bookmark (decode_bookmark bm) = decode_bookmark bm.
Proof.
  unfold decode_bookmark. cbv zeta.
  set (a := convert_webkit_timestamp (Dict.get bm "date_added" (PStr ""))).
  set (bm1 := Dict.set bm "date_added" a).
  set (m := convert_webkit_timestamp (Dict.get bm1 "date_modified" (PStr ""))).
  set (bm2 := Dict.set bm1 "date_modified" m).
  assert (Ha : Dict.get bm2 "date_added" (PStr "") = a).
  { unfold bm2. rewrite get_set_ne by discriminate. apply get_set_eq. }
  assert (Hbm2 : Dict.set bm2 "date_added" a = bm2).
  { apply set_same. unfold bm2.
    rewrite DictFacts.lookup_set_ne by discriminate.
    apply DictFacts.lookup_set_eq. }
  assert (Hca : convert_webkit_timestamp a = a)
    by (unfold a; apply convert_twice).
  assert (Hcm : convert_webkit_timestamp m = m)
    by (unfold m; apply convert_twice).
  assert (Hm : Dict.get bm2 "date_modified" (PStr "") = m)
    by apply get_set_eq.
  rewrite !Ha, !Hca, !Hbm2, Hm, Hcm.
  apply set_same, DictFacts.lookup_set_eq.
Qed.

(** X11. The decoding step of [main] is idempotent: run on its own result
    it changes no record, so a list that holds decoded dates already can
    go through it again. *)
Theorem decode_timestamps_idempotent (bookmarks : list dict) :
  decode_timestamps (decode_timestamps bookmarks) = decode_timestamps bookmarks.
Proof.
  unfold decode_timestamps. rewrite map_map.
  apply map_ext. intros bm. apply decode_bookmark_idempotent.
Qed.

(** ** The whole run: [load_bookmarks] and [main] *)

Lemma load_bookmarks_outcome env path w :
  (exists data,
      read_json env path = Loaded data /\
      load_bookmarks env path w = (w, Done data)) \/
  ((forall data, read_json env path <> Loaded data) /\
   exists line,
     load_bookmarks env path w = (printed w [line], Stop (SystemExit 1))).
Proof.
  unfold load_bookmarks.
  destruct (read_json env path) as [data|e| |e]; [left; eauto|..];
    right; (split; [discriminate|]); eexists; reflexivity.
Qed.

Lemma collect_root_exact rd key acc w :
  exists o,
    collect_root rd key acc w = (printed w (root_lines rd key), o) /\
    if root_collectable rd key then o = Done (acc ++ root_records rd key)%list
    else exists e, o = Stop (Uncaught e) /\
                   (e = AttributeError \/ e = TypeError).
Proof.
  unfold collect_root, root_records, root_lines, root_collectable.
  destruct (Dict.get rd key (PDict [])) as [| |z|s|l|r] eqn:E;
    destruct (truthy _) eqn:T; cbn [negb orb];
    try (cbn [traversable]; eexists; split;
         [unfold IO.bind, IO.print, IO.ret, IO.lift, printed; simpl;
          rewrite ?app_nil_r; try destruct w; reflexivity
         | rewrite ?app_nil_r; eauto]; fail).
  rewrite printed_nil. unfold IO.lift.
  pose proof (proj1 (traverse_outcome_all (PDict r)) acc
                (Dict.get r "name" (PStr key))) as Ho.
  destruct (traversable (PDict r)).
  - rewrite Ho. eauto.
  - destruct Ho as [e [-> He]]. eauto.
Qed.

Lemma collect_roots_exact rd keys :
  (forall k, In k keys -> In k roots) ->
  forall acc w,
  exists lines o,
    IO.for_each (collect_root rd) keys acc w = (printed w lines, o) /\
    Forall no_diagnostic_but_roots lines /\
    if forallb (root_collectable rd) keys
    then o = Done (acc ++ flat_map (root_records rd) keys)%list
    else exists e, o = Stop (Uncaught e) /\
                   (e = AttributeError \/ e = TypeError).
Proof.
  induction keys as [|k keys IH]; intros Hk acc w; simpl.
  - exists [], (Done acc). rewrite printed_nil, app_nil_r.
    repeat split; auto.
  - unfold IO.bind.
    destruct (collect_root_exact rd k acc w) as [o [-> Ho]].
    pose proof (root_lines_diagnostics rd k (Hk k (or_introl eq_refl))) as Hd.
    destruct (root_collectable rd k); cbn [andb].
    + subst o.
      destruct (IH (fun k' H => Hk k' (or_intror H))
                  (acc ++ root_records rd k)%list
                  (printed w (root_lines rd k))) as [lines [o [-> [Hl Ho]]]].
      exists (root_lines rd k ++ lines)%list, o. split; [|split].
      * unfold printed. simpl. now rewrite app_assoc.
      * apply Forall_app. auto.
      * destruct (forallb _ keys); [now rewrite app_assoc | assumption].
    + destruct Ho as [e [-> He]].
      exists (root_lines rd k). eexists. repeat split; eauto.
Qed.

Lemma get_all_exact data w :
  exists lines o,
    get_all_bookmarks data w = (printed w lines, o) /\
    Forall no_diagnostic_but_roots lines /\
    if collectable data then o = Done (document_records data)
    else exists e, o = Stop (Uncaught e) /\
                   (e = AttributeError \/ e = TypeError).
Proof.
  destruct data as [| | | | |top];
    try (exists [], (Stop (Uncaught AttributeError));
         rewrite printed_nil; repeat split; simpl; eauto; fail).
  unfold get_all_bookmarks, collectable, document_records.
  destruct (Dict.get top "roots" (PDict [])) as [| |z|s|l|rd] eqn:E;
    destruct (truthy _) eqn:T; cbn [negb];
    try (exists [no_roots_msg], (Done []); repeat split;
         [repeat constructor; now left]; fail);
    try (exists [], (Stop (Uncaught AttributeError));
         rewrite printed_nil; repeat split; eauto; fail).
  - destruct (collect_roots_exact rd roots (fun k H => H) [] w)
      as [lines [o [-> [Hl Ho]]]].
    exists lines, o. repeat split; [assumption|].
    destruct (forallb (root_collectable rd) roots); [|assumption].
    subst o. simpl. now rewrite app_nil_r.
  - destruct rd; [|discriminate].
    exists [no_roots_msg], (Done []). repeat split.
    repeat constructor.
Qed.

Lemma main_loaded env w data :
  path_exists env bookmarks_path = true ->
  read_json env bookmarks_path = Loaded data ->
  main env w =
  (let (w', o) := get_all_bookmarks data w in
   match o with
   | Done [] => (printed w' [no_bookmarks_msg], Stop (SystemExit 0))
   | Done bookmarks =>
       export_to_csv (open_error env) (decode_timestamps bookmarks)
         (output_file env) w'
   | Stop s => (w', Stop s)
   end).
Proof.
  intros Hex Hread. unfold main, load_bookmarks, IO.bind.
  rewrite Hex, Hread. cbn [negb IO.ret].
  destruct (get_all_bookmarks data w) as [w' [[|bm bms]|s]]; reflexivity.
Qed.

Lemma main_run env w :
  (path_exists env bookmarks_path = false ->
   main env w = (printed w [missing_file_msg], Stop (SystemExit 1))) /\
  (path_exists env bookmarks_path = true ->
   (forall data, read_json env bookmarks_path <> Loaded data) ->
   exists line, main env w = (printed w [line], Stop (SystemExit 1))) /\
  (forall data,
      path_exists env bookmarks_path = true ->
      read_json env bookmarks_path = Loaded data ->
      exists lines,
        Forall no_diagnostic_but_roots lines /\
        (collectable data = false ->
         exists e,
           main env w = (printed w lines, Stop (Uncaught e)) /\
           (e = AttributeError \/ e = TypeError)) /\
        (collectable data = true ->
         document_records data = [] ->
         main env w =
         (printed w (lines ++ [no_bookmarks_msg]), Stop (SystemExit 0))) /\
        (collectable data = true ->
         document_records data <> [] ->
         open_error env (output_file env) = None ->
         main env w =
         (mkWorld
            (stdout w ++ lines ++
             ["Bookmarks successfully exported to " ++ output_file env]%string)
            ((output_file env,
              csv_of (Headers.sorted
                        (Headers.collect
                           (decode_timestamps (document_records data))))
                     (decode_timestamps (document_records data)))
             :: files w),
          Done tt)) /\
        (collectable data = true ->
         document_records data <> [] ->
         forall e,
           open_error env (output_file env) = Some e ->
           exists w',
             main env w = (w', Stop (SystemExit 1)) /\
             stdout w' =
             (stdout w ++ lines ++ ["Error writing to CSV file: " ++ e]%string)%list)).
Proof.
  split; [|split].
  - intros Hex. unfold main. rewrite Hex. reflexivity.
  - intros Hex Hread. unfold main, IO.bind. rewrite Hex. cbn [negb].
    destruct (load_bookmarks_outcome env bookmarks_path w)
      as [[data [Hd _]] | [_ [line ->]]].
    + now destruct (Hread data).
    + now exists line.
  - intros data Hex Hread.
    rewrite (main_loaded env w data Hex Hread).
    destruct (get_all_exact data w) as [lines [o [-> [Hl Ho]]]].
    exists lines. split; [assumption|].
    destruct (collectable data).
    + subst o. repeat split; try discriminate.
      * intros _ ->. unfold printed. simpl. now rewrite app_assoc.
      * intros _ Hne Hopen.
        destruct (document_records data) as [|bm bms] eqn:Erec;
          [contradiction|].
        rewrite <- Erec. unfold export_to_csv, decode_timestamps.
        rewrite Erec. cbn [map]. rewrite Hopen.
        unfold IO.bind, IO.write_file, IO.print, printed. simpl.
        now rewrite app_assoc.
      * intros _ Hne e Hopen.
        destruct (document_records data) as [|bm bms] eqn:Erec;
          [contradiction|].
        unfold export_to_csv, decode_timestamps. cbn [map]. rewrite Hopen.
        eexists. split; [reflexivity|].
        simpl. now rewrite app_assoc.
    + destruct Ho as [e [-> He]].
      repeat split; try discriminate. intros _. eauto.
Qed.

(** X12. What [main] does is decided by what it finds.  Without the
    bookmarks file it prints one line and exits with 1, and so it does
    when the file cannot be loaded.  With a loaded document it first
    prints the diagnostics of the collector; then a document the
    traversal cannot get through stops it with an [AttributeError] or
    [TypeError], a document without bookmarks makes it print one more
    line and exit with 0, and in these four cases it writes no file.  A
    document with bookmarks is exported: when the destination can be
    opened [main] writes the header and the rows of the decoded records
    and ends normally, and when it cannot be opened [main] prints the
    error and exits with 1. *)
Theorem main_ends_as_specified (env : environment) (w : world) :
  (path_exists env bookmarks_path = false ->
   main env w = (printed w [missing_file_msg], Stop (SystemExit 1))) /\
  (path_exists env bookmarks_path = true ->
   (forall data, read_json env bookmarks_path <> Loaded data) ->
   exists line, main env w = (printed w [line], Stop (SystemExit 1))) /\
  (forall data,
      path_exists env bookmarks_path = true ->
      read_json env bookmarks_path = Loaded data ->
      exists lines,
        Forall no_diagnostic_but_roots lines /\
        (collectable data = false ->
         exists e,
           main env w = (printed w lines, Stop (Uncaught e)) /\
           (e = AttributeError \/ e = TypeError)) /\
        (collectable data = true ->
         document_records data = [] ->
         main env w =
         (printed w (lines ++ [no_bookmarks_msg]), Stop (SystemExit 0))) /\
        (collectable data = true ->
         document_records data <> [] ->
         open_error env (output_file env) = None ->
         main env w =
         (mkWorld
            (stdout w ++ lines ++
             ["Bookmarks successfully exported to " ++ output_file env]%string)
            ((output_file env,
              csv_of (Headers.sorted
                        (Headers.collect
                           (decode_timestamps (document_records data))))
                     (decode_timestamps (document_records data)))
             :: files w),
          Done tt)) /\
        (collectable data = true ->
         document_records data <> [] ->
         forall e,
           open_error env (output_file env) = Some e ->
           exists w',
             main env w = (w', Stop (SystemExit 1)) /\
             stdout w' =
             (stdout w ++ lines ++ ["Error writing to CSV file: " ++ e]%string)%list)).
Proof. apply main_run. Qed.

Lemma main_ends_as_specified_witness :
  main missing_file_env init_world =
    (printed init_world [missing_file_msg], Stop (SystemExit 1)) /\
  (exists lines,
      Forall no_diagnostic_but_roots lines /\
      main (working_env (PDict [("roots", PDict [])]%string)) init_world =
        (printed init_world (lines ++ [no_bookmarks_msg]), Stop (SystemExit 0))) /\
  (exists lines,
      Forall no_diagnostic_but_roots lines /\
      main (working_env two_root_document) init_world =
        (mkWorld
           (stdout init_world ++ lines ++
            ["Bookmarks successfully exported to vivaldi_bookmarks.csv"]%string)
           (("vivaldi_bookmarks.csv"%string,
             csv_of (Headers.sorted
                       (Headers.collect
                          (decode_timestamps (document_records two_root_document))))
                    (decode_timestamps (document_records two_root_document)))
            :: files init_world),
         Done tt)) /\
  (exists lines w',
      main (read_only_env two_root_document) init_world =
        (w', Stop (SystemExit 1)) /\
      stdout w' =
        (stdout init_world ++ lines ++
         ["Error writing to CSV file: Permission denied"]%string)%list) /\
  (exists lines e,
      main (working_env (PDict [("roots", PList [PInt 1])]%string)) init_world =
        (printed init_world lines, Stop (Uncaught e)) /\
      (e = AttributeError \/ e = TypeError)).
Proof.
  split; [|split; [|split; [|split]]].
  - apply (proj1 (main_ends_as_specified missing_file_env init_world)).
    reflexivity.
  - destruct (proj2 (proj2 (main_ends_as_specified
                              (working_env (PDict [("roots", PDict [])]%string))
                              init_world))
                _ eq_refl eq_refl) as [lines [Hl [_ [H0 _]]]].
    exists lines. split; [assumption|]. apply H0; reflexivity.
  - destruct (proj2 (proj2 (main_ends_as_specified
                              (working_env two_root_document) init_world))
                _ eq_refl eq_refl) as [lines [Hl [_ [_ [Hok _]]]]].
    exists lines. split; [assumption|].
    apply Hok; [reflexivity | discriminate | reflexivity].
  - destruct (proj2 (proj2 (main_ends_as_specified
                              (read_only_env two_root_document) init_world))
                _ eq_refl eq_refl) as [lines [Hl [_ [_ [_ Hfail]]]]].
    exists lines.
    apply (Hfail eq_refl ltac:(discriminate) "Permission denied"%string eq_refl).
  - destruct (proj2 (proj2 (main_ends_as_specified
                              (working_env (PDict [("roots", PList [PInt 1])]%string))
                              init_world))
                _ eq_refl eq_refl) as [lines [Hl [Hbad _]]].
    exists lines. apply Hbad. reflexivity.
Defined.

Lemma root_records_shape rd key : Forall record_shape (root_records rd key).
Proof.
  unfold root_records.
  destruct (Dict.get rd key (PDict [])) as [| | | | |r]; try constructor.
  destruct (truthy (PDict r)); [|constructor].
  apply Forall_forall. intros x Hx.
  destruct (records_of_origin _ _ _ Hx) as [d [q [-> _]]].
  apply make_bookmark_shape.
Qed.

Lemma document_records_shape data : Forall record_shape (document_records data).
Proof.
  unfold document_records.
  destruct data as [| | | | |top]; try constructor.
  destruct (Dict.get top "roots" (PDict [])) as [| | | | |rd]; try constructor.
  repeat (apply Forall_app; split); apply root_records_shape.
Qed.

Lemma mem_In d k : In k (Dict.keys d) -> Dict.mem d k = true.
Proof.
  intros H. destruct (Dict.mem d k) eqn:E; [reflexivity|].
  now apply DictFacts.mem_false_not_In in E.
Qed.

Lemma decode_bookmark_shape_keys bm :
  record_shape bm -> Dict.keys (decode_bookmark bm) = Dict.keys bm.
Proof.
  intros H. apply decode_bookmark_keys; apply mem_In;
    apply (record_shape_required bm); try assumption; simpl; auto.
Qed.

Lemma decode_headers bookmarks :
  Forall record_shape bookmarks ->
  Headers.sorted (Headers.collect (decode_timestamps bookmarks)) =
  Headers.sorted (Headers.collect bookmarks).
Proof.
  intros Hs. rewrite Forall_forall in Hs.
  apply headers_same_key_set. intros k. unfold decode_timestamps. split.
  - intros [bm' [Hbm' Hk]]. apply in_map_iff in Hbm' as [bm [<- Hbm]].
    exists bm. split; [assumption|].
    now rewrite <- (decode_bookmark_shape_keys bm (Hs bm Hbm)).
  - intros [bm [Hbm Hk]]. exists (decode_bookmark bm). split.
    + now apply in_map.
    + now rewrite (decode_bookmark_shape_keys bm (Hs bm Hbm)).
Qed.

Lemma main_done env w w' :
  main env w = (w', Done tt) ->
  exists data,
    read_json env bookmarks_path = Loaded data /\
    document_records data <> [] /\
    files w' =
      (output_file env,
       map PStr (document_headers data) ::
       map (fun bm => row_of (document_headers data) (decode_bookmark bm))
           (document_records data)) :: files w.
Proof.
  intros Hrun.
  destruct (main_run env w) as [Hmissing [Hload Hdata]].
  destruct (path_exists env bookmarks_path) eqn:Hex;
    [|rewrite (Hmissing eq_refl) in Hrun; discriminate].
  destruct (read_json env bookmarks_path) as [data|e| |e] eqn:Hread;
    try (destruct (Hload eq_refl ltac:(discriminate)) as [line Hl];
         rewrite Hl in Hrun; discriminate).
  destruct (Hdata data eq_refl eq_refl)
    as [lines [_ [Hbad [Hnone [Hok Hfail]]]]].
  destruct (collectable data);
    [|destruct (Hbad eq_refl) as [e [He _]]; rewrite He in Hrun; discriminate].
  assert (Hcase : document_records data = [] \/ document_records data <> []).
  { destruct (document_records data); [now left | right; discriminate]. }
  destruct Hcase as [Hnil | Hne];
    [rewrite (Hnone eq_refl Hnil) in Hrun; discriminate|].
  destruct (open_error env (output_file env)) as [e|] eqn:Hopen.
  { destruct (Hfail eq_refl Hne e eq_refl) as [w1 [H1 _]].
    rewrite H1 in Hrun. discriminate. }
  rewrite (Hok eq_refl Hne eq_refl) in Hrun.
  injection Hrun as <-.
  exists data. split; [reflexivity|]. split; [assumption|].
  cbn [files]. unfold csv_of, document_headers.
  rewrite (decode_headers _ (document_records_shape data)).
  unfold decode_timestamps. now rewrite map_map.
Qed.

(** X13. When [main] ends normally, the file it has written has the
    header of the undecoded records, so decoding adds or removes no
    column; the header has the columns [name], [url], [date_added],
    [date_modified] and [path] and no column [children]; and there is one
    row per bookmark of the document, in the order of the document, each
    the row of the decoded record. *)
Theorem main_writes_header_and_rows (env : environment) (w w' : world)
    (Hrun : main env w = (w', Done tt)) :
  exists data,
    read_json env bookmarks_path = Loaded data /\
    files w' =
      (output_file env,
       map PStr (document_headers data) ::
       map (fun bm => row_of (document_headers data) (decode_bookmark bm))
           (document_records data)) :: files w /\
    (forall k, In k required_keys -> In k (document_headers data)) /\
    ~ In "children"%string (document_headers data).
Proof.
  destruct (main_done env w w' Hrun) as [data [Hread [Hne Hfiles]]].
  exists data. repeat split; try assumption.
  - intros k Hk. unfold document_headers.
    destruct (document_records data) as [|bm bms] eqn:E; [contradiction|].
    apply headers_In. exists bm. split; [now left|].
    apply record_shape_required; [|assumption].
    pose proof (document_records_shape data) as Hs. rewrite E in Hs.
    now apply Forall_inv in Hs.
  - unfold document_headers. intros Hc.
    apply headers_In in Hc as [bm [Hbm Hc]].
    pose proof (document_records_shape data) as Hs.
    rewrite Forall_forall in Hs.
    now apply (proj2 (proj2 (Hs bm Hbm))).
Qed.

Lemma main_writes_header_and_rows_witness :
  exists data,
    read_json (working_env two_root_document) bookmarks_path = Loaded data /\
    files (fst (main (working_env two_root_document) init_world)) =
      (output_file (working_env two_root_document),
       map PStr (document_headers data) ::
       map (fun bm => row_of (document_headers data) (decode_bookmark bm))
           (document_records data)) :: files init_world /\
    (forall k, In k required_keys -> In k (document_headers data)) /\
    ~ In "children"%string (document_headers data).
Proof.
  apply (main_writes_header_and_rows (working_env two_root_document)
           init_world (fst (main (working_env two_root_document) init_world))).
  vm_compute. reflexivity.
Defined.

(** ** The root in the path of a record *)

Lemma root_records_path rd key r :
  In r (root_records rd key) ->
  exists root q,
    Dict.lookup rd key = Some (PDict root) /\
    Dict.lookup r "path" = Some q /\
    (truthy (Dict.get root "name" (PStr key)) = true ->
     path_extends (Dict.get root "name" (PStr key)) q).
Proof.
  unfold root_records, Dict.get at 1.
  destruct (Dict.lookup rd key) as [v|] eqn:E; [|contradiction].
  destruct v as [| | | | |root]; try contradiction.
  destruct (truthy (PDict root)); [|contradiction].
  intros Hr. destruct (records_of_origin _ _ _ Hr) as [d [q [-> [_ Hq]]]].
  exists root, q. repeat split; [apply make_bookmark_path | assumption].
Qed.

Lemma document_records_path top rd r :
  Dict.lookup top "roots" = Some (PDict rd) ->
  In r (document_records (PDict top)) ->
  exists root_key, In root_key roots /\ In r (root_records rd root_key).
Proof.
  intros Hroots. unfold document_records, Dict.get. rewrite Hroots.
  rewrite !in_app_iff. unfold roots. simpl.
  intros [H | [H | H]]; eauto 8.
Qed.

(** X14. Every record that [get_all_bookmarks] returns comes from one of
    the three roots, which is an object, and when the name of that root
    (or, without a name, its key) is not empty, the path of the record is
    that name or begins with that name and a slash. *)
Theorem record_path_names_its_root (top rd : dict) (w w' : world)
    (bookmarks : list dict) (r : dict)
    (Hroots : Dict.lookup top "roots" = Some (PDict rd))
    (Hrun : get_all_bookmarks (PDict top) w = (w', Done bookmarks))
    (Hr : In r bookmarks) :
  exists root_key root q,
    In root_key roots /\
    Dict.lookup rd root_key = Some (PDict root) /\
    Dict.lookup r "path" = Some q /\
    (truthy (Dict.get root "name" (PStr root_key)) = true ->
     path_extends (Dict.get root "name" (PStr root_key)) q).
Proof.
  destruct (get_all_outcome (PDict top) w) as [lines [o [Hrun' [_ [_ Ho]]]]].
  rewrite Hrun in Hrun'. injection Hrun' as _ <-.
  simpl in Ho. subst bookmarks.
  destruct (document_records_path top rd r Hroots Hr) as [key [Hkey Hin]].
  destruct (root_records_path rd key r Hin) as [root [q [Hroot [Hq Hext]]]].
  exists key, root, q. auto.
Qed.

Lemma record_path_names_its_root_witness :
  exists root_key root q,
    In root_key roots /\
    Dict.lookup
      [("bookmark_bar", folder "A" [folder "B" [folder "C" [PDict leaf_url]]])]%string
      root_key = Some (PDict root) /\
    Dict.lookup (make_bookmark leaf_url (PStr "A/A/B/C")) "path" = Some q /\
    (truthy (Dict.get root "name" (PStr root_key)) = true ->
     path_extends (Dict.get root "name" (PStr root_key)) q).
Proof.
  apply (record_path_names_its_root
           [("roots",
             PDict [("bookmark_bar",
                     folder "A" [folder "B" [folder "C" [PDict leaf_url]]])])]%string
           _ init_world
           (printed init_world [no_root_msg "other"; no_root_msg "synced"])
           [make_bookmark leaf_url (PStr "A/A/B/C")]);
    [reflexivity | reflexivity | now left].
Defined.
